(** * MyT: the Toyota Connected Services controller

    A shallow embedding of [mytoyota/controller.py]: the login sequence
    ([_update_token]), the session-validity check ([_is_token_valid]) and
    the request pipeline ([request_raw], [request_json]).

    The controller is Python over decoded JSON, so values are modelled as
    JSON trees with Python's dynamic behaviour written out (membership,
    subscripting, truthiness, the exceptions they raise).  The network and
    the wall clock are oracles of the world; every HTTP request sent is
    appended to a log.  Mutations that happen before an exception is raised
    stay in the world, as they do in Python. *)

From Stdlib Require Import ZArith String Ascii List Lia DecimalString.
From stdpp Require Import base gmap strings list.

Local Open Scope string_scope.

(** ** Python values *)

Module Py.

(** A decoded JSON value, as [json.loads] builds it.  [JNull] is Python's
    [None].  A number written with a fraction or an exponent decodes to a
    float and is kept as its literal, [JFloat]; what Python does with the
    float is left to the library parameters below. *)
#[warnings="-register-all"]
Inductive json : Type :=
| JNull
| JBool (b : bool)
| JInt (n : Z)
| JFloat (lit : string)
| JStr (s : string)
| JArr (xs : list json)
| JObj (kvs : list (string * json)).

(** A Python [dict] with string keys, in insertion order. *)
Definition dict : Type := list (string * json).

Inductive exn : Type :=
| ToyotaLoginError (msg : string)
| ToyotaInternalError (msg : string)
| ToyotaApiError (msg : string)
| KeyError (key : string)
| TypeError
| IndexError
| OverflowError
| ValueError
| JSONDecodeError
| JwtError
| InvalidURL
| HttpxError.

Inductive result (A : Type) : Type :=
| Ok (a : A)
| Raise (e : exn).
Arguments Ok {A} a.
Arguments Raise {A} e.

Definition rbind {A B} (r : result A) (k : A -> result B) : result B :=
  match r with
  | Ok a => k a
  | Raise e => Raise e
  end.

Fixpoint rmap {A B} (f : A -> result B) (xs : list A) : result (list B) :=
  match xs with
  | [] => Ok []
  | x :: xs' =>
      rbind (f x) (fun y => rbind (rmap f xs') (fun ys => Ok (y :: ys)))
  end.

(** [d.get(k)] *)
Fixpoint dict_get (k : string) (d : dict) : option json :=
  match d with
  | [] => None
  | (k', v) :: d' => if String.eqb k k' then Some v else dict_get k d'
  end.

(** [d[k] = v]: an existing key keeps its place, a new key goes last. *)
Fixpoint dict_set (k : string) (v : json) (d : dict) : dict :=
  match d with
  | [] => [(k, v)]
  | (k', v') :: d' =>
      if String.eqb k k' then (k, v) :: d' else (k', v') :: dict_set k v d'
  end.

(** [d.update(upd)] *)
Definition dict_update (d upd : dict) : dict :=
  fold_left (fun acc kv => dict_set (fst kv) (snd kv) acc) upd d.

(** A lookup by name in a list of pairs. *)
Fixpoint assoc_get {A} (k : string) (l : list (string * A)) : option A :=
  match l with
  | [] => None
  | (k', v) :: l' => if String.eqb k k' then Some v else assoc_get k l'
  end.

(** [v == s] for a string literal [s]. *)
Definition eq_str (v : json) (s : string) : bool :=
  match v with
  | JStr s' => String.eqb s' s
  | _ => false
  end.

Definition is_substring (needle hay : string) : bool :=
  match String.index 0 needle hay with
  | Some _ => true
  | None => false
  end.

(** [k in v] for a string [k]: key membership in a dict, element
    membership in a list, substring in a str, [TypeError] otherwise. *)
Definition contains (k : string) (v : json) : result bool :=
  match v with
  | JObj d => Ok (match dict_get k d with Some _ => true | None => false end)
  | JArr xs => Ok (existsb (fun x => eq_str x k) xs)
  | JStr s => Ok (is_substring k s)
  | _ => Raise TypeError
  end.

(** [v[k]] for a string [k]. *)
Definition getitem (v : json) (k : string) : result json :=
  match v with
  | JObj d =>
      match dict_get k d with
      | Some x => Ok x
      | None => Raise (KeyError k)
      end
  | _ => Raise TypeError
  end.

(** [v[0]] *)
Definition getitem0 (v : json) : result json :=
  match v with
  | JArr (x :: _) => Ok x
  | JArr [] => Raise IndexError
  | JStr (String c _) => Ok (JStr (String c EmptyString))
  | JStr EmptyString => Raise IndexError
  | JObj _ => Raise (KeyError "0")
  | _ => Raise TypeError
  end.

(** [v[k] = x] for a string [k]. *)
Definition setitem (v : json) (k : string) (x : json) : result json :=
  match v with
  | JObj d => Ok (JObj (dict_set k x d))
  | _ => Raise TypeError
  end.

(** [for x in v]: the items the loop visits. *)
Definition iter (v : json) : result (list json) :=
  match v with
  | JArr xs => Ok xs
  | JObj d => Ok (map (fun kv => JStr (fst kv)) d)
  | JStr s => Ok (map (fun c => JStr (String c EmptyString)) (list_ascii_of_string s))
  | _ => Raise TypeError
  end.

(** [f"{n}"] for an [int]. *)
Definition str_of_int (n : Z) : string := NilZero.string_of_int (Z.to_int n).

(** A [datetime] is counted in microseconds from [datetime.min]; the last
    one is 9999-12-31 23:59:59.999999. *)
Definition MAXORDINAL : Z := 3652059.
Definition DAY_US : Z := 86400 * 1000000.
Definition datetime_max : Z := MAXORDINAL * DAY_US - 1.

Definition is_datetime (t : Z) : Prop := (0 <= t <= datetime_max)%Z.

(** [t + delta]: [OverflowError] outside year 1..9999. *)
Definition datetime_add (t delta : Z) : result Z :=
  let r := (t + delta)%Z in
  if (0 <=? r)%Z && (r <=? datetime_max)%Z then Ok r else Raise OverflowError.

End Py.
Export Py.

(** ** What the controller takes from outside its own file *)

(** An [httpx.Response], as far as the controller reads it: [json_body] is
    what [resp.json()] returns ([None] when it raises), [location] is
    [resp.headers.get("location")]. *)
Record Response : Type := {
  status_code : Z;
  text : string;
  json_body : option json;
  location : option string
}.

(** The outcome of awaiting an [httpx] call: a response, or a transport
    failure (time-out, connection error). *)
Inductive Reply : Type :=
| Answer (resp : Response)
| Failed.

(** The arguments of one [client.post] / [client.get] / [client.request]. *)
Record Request : Type := {
  rq_method : string;
  rq_url : string;
  rq_headers : dict;
  rq_json : option json;
  rq_data : option dict;
  rq_params : option dict;
  rq_timeout : option Z;
  rq_follow_redirects : bool
}.

(** Constants of [mytoyota.const] and functions of imported packages. *)
Record Lib : Type := {
  API_BASE_URL : string;
  ACCESS_TOKEN_URL : string;
  AUTHENTICATE_URL : string;
  AUTHORIZE_URL : string;
  (** [jwt.decode(tok, algorithms=["RS256"], options={"verify_signature":
      False}, audience="oneappsdkclient")]: the claims, [None] when it
      raises. *)
  jwt_decode : json -> option json;
  (** [httpx.URL(s).query.decode()], [None] when [httpx.URL] raises. *)
  url_query : string -> option string;
  (** [urllib.parse.parse_qs]: field name to the list of its values. *)
  parse_qs : string -> list (string * list string);
  (** [bool(x)] for a float. *)
  float_truthy : string -> bool;
  (** [timedelta(seconds=x)] for a float, in microseconds; [None] when
      it raises, which is a [ValueError] for a NaN and an [OverflowError]
      otherwise. *)
  float_timedelta : string -> option Z;
  float_is_nan : string -> bool;
  (** [str(x)] for a float, a list or a dict. *)
  repr_other : json -> string
}.

(** ** The controller and its world *)

Record Controller : Type := {
  _username : string;
  _password : string;
  _token : json;
  _token_expiration : option Z;
  _refresh_token : json;
  _uuid : json;
  _timeout : Z
}.

(** [Controller.__init__] *)
Definition Controller_init (username password : string) (timeout : Z) : Controller :=
  {| _username := username;
     _password := password;
     _token := JNull;
     _token_expiration := None;
     _refresh_token := JNull;
     _uuid := JNull;
     _timeout := timeout |}.

(** The address of a [dict] object that a caller shares with the
    controller. *)
Definition loc : Type := positive.

(** [server n] is what the [n]-th HTTP call of this world is answered with,
    [wall n] what the [n]-th reading of [datetime.now()] returns.  [log]
    holds the requests sent so far, [ticks] counts the clock readings. *)
Record World : Type := {
  self : Controller;
  heap : gmap loc dict;
  log : list Request;
  ticks : nat;
  server : nat -> Reply;
  wall : nat -> Z
}.

Definition with_self (c : Controller) (w : World) : World :=
  {| self := c; heap := heap w; log := log w; ticks := ticks w;
     server := server w; wall := wall w |}.

Definition with_heap (h : gmap loc dict) (w : World) : World :=
  {| self := self w; heap := h; log := log w; ticks := ticks w;
     server := server w; wall := wall w |}.

Definition with_log (l : list Request) (w : World) : World :=
  {| self := self w; heap := heap w; log := l; ticks := ticks w;
     server := server w; wall := wall w |}.

Definition with_ticks (n : nat) (w : World) : World :=
  {| self := self w; heap := heap w; log := log w; ticks := n;
     server := server w; wall := wall w |}.

(** *** Coroutines

    An [async def] is a tree of effects: reads and writes of the
    controller, clock readings, operations on shared dictionaries, and
    [Await], the one place where the coroutine is suspended, waiting for
    the reply to an HTTP request. *)

Inductive Async (A : Type) : Type :=
| Ret (a : A)
| Throw (e : exn)
| GetSelf (k : Controller -> Async A)
| SetSelf (f : Controller -> Controller) (k : Async A)
| Now (k : Z -> Async A)
| Await (rq : Request) (k : Response -> Async A)
| NewDict (k : loc -> Async A)
| ReadDict (l : loc) (k : dict -> Async A)
| UpdateDict (l : loc) (upd : dict) (k : Async A).
Arguments Ret {A} a.
Arguments Throw {A} e.
Arguments GetSelf {A} k.
Arguments SetSelf {A} f k.
Arguments Now {A} k.
Arguments Await {A} rq k.
Arguments NewDict {A} k.
Arguments ReadDict {A} l k.
Arguments UpdateDict {A} l upd k.

Fixpoint bind {A B} (m : Async A) (k : A -> Async B) : Async B :=
  match m with
  | Ret a => k a
  | Throw e => Throw e
  | GetSelf c => GetSelf (fun x => bind (c x) k)
  | SetSelf f c => SetSelf f (bind c k)
  | Now c => Now (fun t => bind (c t) k)
  | Await rq c => Await rq (fun resp => bind (c resp) k)
  | NewDict c => NewDict (fun l => bind (c l) k)
  | ReadDict l c => ReadDict l (fun d => bind (c d) k)
  | UpdateDict l upd c => UpdateDict l upd (bind c k)
  end.

Definition ret {A} (a : A) : Async A := Ret a.

Definition raise {A} (e : exn) : Async A := Throw e.

Definition lift {A} (r : result A) : Async A :=
  match r with
  | Ok a => Ret a
  | Raise e => Throw e
  end.

Declare Scope py_scope.
Delimit Scope py_scope with py.
Notation "'let!' x := m 'in' k" := (bind m (fun x => k))
  (at level 10, x name, m at level 100, k at level 200) : py_scope.
Notation "'do!' m 'in' k" := (bind m (fun _ => k))
  (at level 10, m at level 100, k at level 200) : py_scope.
Notation "'try!' x := r 'in' k" := (bind (lift r) (fun x => k))
  (at level 10, x name, r at level 100, k at level 200) : py_scope.
Local Open Scope py_scope.

Definition get_self : Async Controller := GetSelf Ret.

Definition set_self (f : Controller -> Controller) : Async unit :=
  SetSelf f (Ret tt).

(** [datetime.now()] *)
Definition now : Async Z := Now Ret.

(** [await client.request(...)] *)
Definition send (rq : Request) : Async Response := Await rq Ret.

(** [{}]: a new dict object. *)
Definition new_dict : Async loc := NewDict Ret.

Definition read_dict (l : loc) : Async dict := ReadDict l Ret.

(** [obj.update(upd)] on the object at [l]. *)
Definition update_dict (l : loc) (upd : dict) : Async unit :=
  UpdateDict l upd (Ret tt).

(** The dict object at [l]. *)
Definition deref (h : gmap loc dict) (l : loc) : dict :=
  match h !! l with
  | Some d => d
  | None => []
  end.

(** One call on its own: every request is answered by the server before
    anything else happens. *)
Fixpoint run {A} (m : Async A) (w : World) : result A * World :=
  match m with
  | Ret a => (Ok a, w)
  | Throw e => (Raise e, w)
  | GetSelf k => run (k (self w)) w
  | SetSelf f k => run k (with_self (f (self w)) w)
  | Now k => run (k (wall w (ticks w))) (with_ticks (S (ticks w)) w)
  | Await rq k =>
      let w' := with_log (log w ++ [rq]) w in
      match server w (length (log w)) with
      | Answer resp => run (k resp) w'
      | Failed => (Raise HttpxError, w')
      end
  | NewDict k =>
      let l := fresh (dom (heap w)) in
      run (k l) (with_heap (<[l := []]> (heap w)) w)
  | ReadDict l k => run (k (deref (heap w) l)) w
  | UpdateDict l upd k =>
      run k (with_heap (<[l := dict_update (deref (heap w) l) upd]> (heap w)) w)
  end.

(** [resp.json()] *)
Definition resp_json (resp : Response) : result json :=
  match json_body resp with
  | Some v => Ok v
  | None => Raise JSONDecodeError
  end.

(** ** [mytoyota/controller.py] *)

Section Controller.

Variable lib : Lib.

(** [bool(v)] *)
Definition truthy (v : json) : bool :=
  match v with
  | JNull => false
  | JBool b => b
  | JInt n => negb (n =? 0)%Z
  | JFloat x => float_truthy lib x
  | JStr s => negb (String.eqb s "")
  | JArr xs => match xs with [] => false | _ => true end
  | JObj d => match d with [] => false | _ => true end
  end.

(** [f"{v}"] *)
Definition py_str (v : json) : string :=
  match v with
  | JNull => "None"
  | JBool true => "True"
  | JBool false => "False"
  | JInt n => str_of_int n
  | JStr s => s
  | _ => repr_other lib v
  end.

(** [timedelta(seconds=v)], in microseconds. *)
Definition timedelta_seconds (v : json) : result Z :=
  match v with
  | JInt n =>
      if (Z.abs (n / 86400) >? 999999999)%Z then Raise OverflowError
      else Ok (n * 1000000)%Z
  | JBool b => Ok (if b then 1000000 else 0)%Z
  | JFloat x =>
      match float_timedelta lib x with
      | Some us => Ok us
      | None => Raise (if float_is_nan lib x then ValueError else OverflowError)
      end
  | _ => Raise TypeError
  end.

(** *** The challenge loop, lines 50-65 *)

Definition standard_headers : dict :=
  [("accept-api-version", JStr "resource=2.1, protocol=1.0");
   ("x-brand", JStr "T");
   ("user-agent", JStr "okhttp/4.10.0")].

(** [cb["input"][0]["value"] = v] *)
Definition set_input_value (cb : json) (v : string) : result json :=
  rbind (getitem cb "input") (fun inp =>
  rbind (getitem0 inp) (fun slot =>
  rbind (setitem slot "value" (JStr v)) (fun slot' =>
  match cb, inp with
  | JObj d, JArr (_ :: rest) =>
      Ok (JObj (dict_set "input" (JArr (slot' :: rest)) d))
  | _, _ => Raise TypeError
  end))).

(** The body of [for cb in data["callbacks"]], lines 54-57. *)
Definition fill_callback (username password : string) (cb : json) : result json :=
  rbind (getitem cb "type") (fun ty =>
  rbind (if eq_str ty "NameCallback"
         then rbind (getitem cb "output") (fun out =>
              rbind (getitem0 out) (fun out0 =>
              rbind (getitem out0 "value") (fun v =>
              Ok (eq_str v "User Name"))))
         else Ok false) (fun is_user_name =>
  if is_user_name then set_input_value cb username
  else if eq_str ty "PasswordCallback" then set_input_value cb password
  else Ok cb)).

(** Lines 52-57: the challenge state after the prompts are filled. *)
Definition fill_callbacks (username password : string) (data : json) : result json :=
  rbind (contains "callbacks" data) (fun has =>
  if has then
    rbind (getitem data "callbacks") (fun cbs =>
    rbind (iter cbs) (fun items =>
    rbind (rmap (fill_callback username password) items) (fun items' =>
    match data, cbs with
    | JObj d, JArr _ => Ok (JObj (dict_set "callbacks" (JArr items') d))
    | _, _ => Ok data
    end)))
  else Ok data).

Definition authenticate_post (data : json) : Request :=
  {| rq_method := "POST";
     rq_url := AUTHENTICATE_URL lib;
     rq_headers := standard_headers;
     rq_json := Some data;
     rq_data := None;
     rq_params := None;
     rq_timeout := None;
     rq_follow_redirects := false |}.

(** [for _ in range(n)] with the loop body of lines 52-65; the result is
    [data] when the loop is left. *)
Fixpoint challenge_rounds (n : nat) (data : json) : Async json :=
  match n with
  | O => ret data
  | S n' =>
      let! c := get_self in
      try! filled := fill_callbacks (_username c) (_password c) data in
      let! resp := send (authenticate_post filled) in
      if negb (status_code resp =? 200)%Z then
        raise (ToyotaLoginError
                 ("Authentication Failed. " +:+ str_of_int (status_code resp)
                  +:+ ", " +:+ text resp +:+ "."))
      else
        try! data' := resp_json resp in
        try! found := contains "tokenId" data' in
        if found then ret data' else challenge_rounds n' data'
  end.

(** *** The authorization step, lines 67-78 *)

Definition authorize_get (token_id : json) : Request :=
  {| rq_method := "GET";
     rq_url := AUTHORIZE_URL lib;
     rq_headers := [("cookie", JStr ("iPlanetDirectoryPro=" +:+ py_str token_id))];
     rq_json := None;
     rq_data := None;
     rq_params := None;
     rq_timeout := None;
     rq_follow_redirects := false |}.

(** [parse.parse_qs(httpx.URL(resp.headers.get("location")).query.decode())["code"]] *)
Definition location_code (resp : Response) : result (list string) :=
  match location resp with
  | None => Raise TypeError
  | Some url =>
      match url_query lib url with
      | None => Raise InvalidURL
      | Some q =>
          match assoc_get "code" (parse_qs lib q) with
          | Some vs => Ok vs
          | None => Raise (KeyError "code")
          end
      end
  end.

Definition authorize (data : json) : Async (list string) :=
  try! found := contains "tokenId" data in
  if negb found then
    raise (ToyotaLoginError "Authentication Failed. Unknown method.")
  else
    try! token_id := getitem data "tokenId" in
    let! resp := send (authorize_get token_id) in
    if negb (status_code resp =? 302)%Z then
      raise (ToyotaLoginError
               ("Authorization failed. " +:+ str_of_int (status_code resp)
                +:+ ", " +:+ text resp +:+ "."))
    else
      lift (location_code resp).

(** *** The token exchange, lines 80-113 *)

Definition token_post (code : list string) : Request :=
  {| rq_method := "POST";
     rq_url := ACCESS_TOKEN_URL lib;
     rq_headers := [("authorization", JStr "basic b25lYXBwOm9uZWFwcA==")];
     rq_json := None;
     rq_data := Some [("client_id", JStr "oneapp");
                      ("code", JArr (map JStr code));
                      ("redirect_uri", JStr "com.toyota.oneapp:/oauth2Callback");
                      ("grant_type", JStr "authorization_code");
                      ("code_verifier", JStr "plain")];
     rq_params := None;
     rq_timeout := None;
     rq_follow_redirects := false |}.

(** The test of lines 97-102; [or] stops at the first operand that holds. *)
Definition tokens_missing (access_tokens : json) : result bool :=
  rbind (contains "access_token" access_tokens) (fun a =>
  if negb a then Ok true else
  rbind (contains "id_token" access_tokens) (fun i =>
  if negb i then Ok true else
  rbind (contains "refresh_token" access_tokens) (fun r =>
  if negb r then Ok true else
  rbind (contains "expires_in" access_tokens) (fun e =>
  Ok (negb e))))).

Definition set_token (v : json) (c : Controller) : Controller :=
  {| _username := _username c; _password := _password c;
     _token := v;
     _token_expiration := _token_expiration c;
     _refresh_token := _refresh_token c; _uuid := _uuid c;
     _timeout := _timeout c |}.

Definition set_refresh_token (v : json) (c : Controller) : Controller :=
  {| _username := _username c; _password := _password c;
     _token := _token c;
     _token_expiration := _token_expiration c;
     _refresh_token := v; _uuid := _uuid c;
     _timeout := _timeout c |}.

Definition set_uuid (v : json) (c : Controller) : Controller :=
  {| _username := _username c; _password := _password c;
     _token := _token c;
     _token_expiration := _token_expiration c;
     _refresh_token := _refresh_token c; _uuid := v;
     _timeout := _timeout c |}.

Definition set_token_expiration (t : Z) (c : Controller) : Controller :=
  {| _username := _username c; _password := _password c;
     _token := _token c;
     _token_expiration := Some t;
     _refresh_token := _refresh_token c; _uuid := _uuid c;
     _timeout := _timeout c |}.

(** Lines 105-113: the four assignments, in the order of the source. *)
Definition store_tokens (access_tokens : json) : Async unit :=
  try! access := getitem access_tokens "access_token" in
  do! set_self (set_token access) in
  try! refresh := getitem access_tokens "refresh_token" in
  do! set_self (set_refresh_token refresh) in
  try! id_token := getitem access_tokens "id_token" in
  try! claims := match jwt_decode lib id_token with
                 | Some c => Ok c
                 | None => Raise JwtError
                 end in
  try! uuid := getitem claims "uuid" in
  do! set_self (set_uuid uuid) in
  let! t := now in
  try! expires_in := getitem access_tokens "expires_in" in
  try! delta := timedelta_seconds expires_in in
  try! expiry := datetime_add t delta in
  set_self (set_token_expiration expiry).

Definition exchange (code : list string) : Async unit :=
  let! resp := send (token_post code) in
  if negb (status_code resp =? 200)%Z then
    raise (ToyotaLoginError
             ("Token retrieval failed. " +:+ str_of_int (status_code resp)
              +:+ ", " +:+ text resp +:+ "."))
  else
    try! access_tokens := resp_json resp in
    try! missing := tokens_missing access_tokens in
    if missing then
      raise (ToyotaLoginError
               ("Token retrieval failed. Missing Tokens. "
                +:+ str_of_int (status_code resp) +:+ ", " +:+ text resp +:+ "."))
    else store_tokens access_tokens.

(** *** [Controller._update_token] and [Controller.login] *)

Definition _update_token : Async unit :=
  let! data := challenge_rounds 10 (JObj []) in
  let! code := authorize data in
  exchange code.

Definition login : Async unit := _update_token.

(** *** [Controller._is_token_valid] *)

Definition _is_token_valid : Async bool :=
  let! c := get_self in
  if truthy (_token c) then ret false
  else
    match _token_expiration c with
    | None => ret false
    | Some expiry =>
        let! t := now in
        ret (expiry >? t)%Z
    end.

(** *** [Controller.request_raw] and [Controller.request_json] *)

Definition allowed_methods : list string := ["GET"; "POST"; "PUT"; "DELETE"].

(** Lines 135-136 *)
Definition ensure_token : Async unit :=
  let! valid := _is_token_valid in
  if negb valid then _update_token else ret tt.

Definition session_headers (c : Controller) : dict :=
  [("x-api-key", JStr "tTZipv6liF74PwMfk9Ed68AQ0bISswwf3iHQdqcF");
   ("x-guid", _uuid c);
   ("guid", _uuid c);
   ("authorization", JStr ("Bearer " +:+ py_str (_token c)));
   ("x-channel", JStr "ONEAPP");
   ("x-brand", JStr "T");
   ("user-agent", JStr "okhttp/4.10.0")].

(** Lines 138-153: the headers object the request is sent with. *)
Definition merge_headers (vin : option string) (headers : option loc) : Async loc :=
  let! h := match headers with
            | None => new_dict
            | Some l => ret l
            end in
  let! c := get_self in
  do! update_dict h (session_headers c) in
  do! match vin with
       | Some v => update_dict h [("vin", JStr v)]
       | None => ret tt
       end in
  ret h.

Definition api_request (c : Controller) (method endpoint : string)
    (hd : dict) (body params : option dict) : Request :=
  {| rq_method := method;
     rq_url := API_BASE_URL lib +:+ endpoint;
     rq_headers := hd;
     rq_json := option_map JObj body;
     rq_data := None;
     rq_params := params;
     rq_timeout := Some (_timeout c);
     rq_follow_redirects := true |}.

(** Lines 155-171 *)
Definition dispatch (method endpoint : string) (h : loc)
    (body params : option dict) : Async Response :=
  let! c := get_self in
  let! hd := read_dict h in
  let! response := send (api_request c method endpoint hd body params) in
  if (status_code response =? 200)%Z || (status_code response =? 202)%Z then
    ret response
  else
    raise (ToyotaApiError
             ("Request Failed.  " +:+ str_of_int (status_code response)
              +:+ ", " +:+ text response +:+ ".")).

Definition request_raw (method endpoint : string) (vin : option string)
    (body params : option dict) (headers : option loc) : Async Response :=
  if negb (existsb (String.eqb method) allowed_methods) then
    raise (ToyotaInternalError "Invalid request method provided")
  else
    do! ensure_token in
    let! h := merge_headers vin headers in
    dispatch method endpoint h body params.

Definition request_json (method endpoint : string) (vin : option string)
    (body params : option dict) (headers : option loc) : Async json :=
  let! response := request_raw method endpoint vin body params headers in
  lift (resp_json response).

End Controller.

(** ** A small instance of the outside world

    Stand-ins for the imported packages, used to run the controller on
    concrete exchanges: a query-string splitter without percent-decoding,
    and a token decoder that knows three identity tokens. *)

Module Sample.

Fixpoint after_char (sep : ascii) (s : string) : option string :=
  match s with
  | EmptyString => None
  | String c s' => if Ascii.eqb c sep then Some s' else after_char sep s'
  end.

Fixpoint before_char (sep : ascii) (s : string) : string :=
  match s with
  | EmptyString => EmptyString
  | String c s' => if Ascii.eqb c sep then EmptyString else String c (before_char sep s')
  end.

Fixpoint split_on (sep : ascii) (s : string) : list string :=
  match s with
  | EmptyString => [EmptyString]
  | String c s' =>
      if Ascii.eqb c sep then EmptyString :: split_on sep s'
      else match split_on sep s' with
           | x :: xs => String c x :: xs
           | [] => [String c EmptyString]
           end
  end.

Fixpoint add_value (k v : string) (l : list (string * list string)) :
    list (string * list string) :=
  match l with
  | [] => [(k, [v])]
  | (k', vs) :: l' =>
      if String.eqb k k' then (k', (vs ++ [v])%list) :: l' else (k', vs) :: add_value k v l'
  end.

(** Fields are separated by [&]; a field without [=] or with an empty value
    is dropped, as [parse_qs] does by default. *)
Definition split_query (q : string) : list (string * list string) :=
  fold_left
    (fun acc field =>
       match after_char "=" field with
       | Some EmptyString | None => acc
       | Some v => add_value (before_char "=" field) v acc
       end)
    (split_on "&" q) [].

Definition query_of (url : string) : option string :=
  Some (default EmptyString (after_char "?" url)).

Definition decode (tok : json) : option json :=
  match tok with
  | JStr "header.uuid-claim.signature" => Some (JObj [("uuid", JStr "user-1")])
  | JStr "header.no-uuid-claim.signature" => Some (JObj [("sub", JStr "user-1")])
  | _ => None
  end.

Definition lib : Lib :=
  {| API_BASE_URL := "https://api.example";
     ACCESS_TOKEN_URL := "https://login.example/access_token";
     AUTHENTICATE_URL := "https://login.example/authenticate";
     AUTHORIZE_URL := "https://login.example/authorize";
     jwt_decode := decode;
     url_query := query_of;
     parse_qs := split_query;
     float_truthy := fun _ => true;
     float_timedelta := fun _ => None;
     float_is_nan := fun _ => true;
     repr_other := fun _ => "?" |}.

(** A server that answers the [n]-th call with the [n]-th reply of a
    script, and fails once the script is over. *)
Definition scripted (script : list Reply) (n : nat) : Reply :=
  nth n script Failed.

Definition world (c : Controller) (script : list Reply) (clock : Z) : World :=
  {| self := c; heap := ∅; log := []; ticks := 0;
     server := scripted script; wall := fun _ => clock |}.

Definition reply (status : Z) (body : string) (js : option json)
    (loc : option string) : Reply :=
  Answer {| status_code := status; text := body; json_body := js; location := loc |}.

(** The replies of a login that goes through: one prompt round, the token
    identifier, the redirect, the tokens. *)
Definition name_prompt (value : string) : json :=
  JObj [("type", JStr "NameCallback");
        ("output", JArr [JObj [("name", JStr "prompt"); ("value", JStr "User Name")]]);
        ("input", JArr [JObj [("name", JStr "IDToken1"); ("value", JStr value)]])].

Definition secret_prompt (value : string) : json :=
  JObj [("type", JStr "PasswordCallback");
        ("output", JArr [JObj [("name", JStr "prompt"); ("value", JStr "Password")]]);
        ("input", JArr [JObj [("name", JStr "IDToken2"); ("value", JStr value)]])].

Definition text_prompt : json :=
  JObj [("type", JStr "TextOutputCallback");
        ("output", JArr [JObj [("name", JStr "message"); ("value", JStr "hello")]])].

Definition challenge (user secret : string) : dict :=
  [("authId", JStr "auth-1");
   ("callbacks", JArr [name_prompt user; secret_prompt secret; text_prompt])].

Definition prompts : json := JObj (challenge "" "").

Definition tokens (id_token : string) (expires_in : json) : json :=
  JObj [("access_token", JStr "access-1");
        ("id_token", JStr id_token);
        ("refresh_token", JStr "refresh-1");
        ("expires_in", expires_in)].

Definition login_script (token_body : json) : list Reply :=
  [reply 200 "prompts" (Some prompts) None;
   reply 200 "token id" (Some (JObj [("tokenId", JStr "tid-1")])) None;
   reply 302 "" None (Some "com.toyota.oneapp:/oauth2Callback?code=code-1&state=s");
   reply 200 "tokens" (Some token_body) None].

Definition fresh_controller : Controller := Controller_init "alice" "secret" 30.

End Sample.

(** ** Vocabulary of the statements *)

Local Open Scope Z_scope.

Definition logged_in_controller : Controller :=
  {| _username := "alice"; _password := "secret";
     _token := JStr "access-1";
     _token_expiration := Some 5000;
     _refresh_token := JStr "refresh-1";
     _uuid := JStr "user-1";
     _timeout := 30 |}.


(** The challenge state a round posts when it starts from [d]. *)
Definition filled (username password : string) (d : json) : json :=
  match fill_callbacks username password d with
  | Ok d' => d'
  | Raise _ => d
  end.

(** A reply the challenge loop goes on after: status 200 and a JSON body
    [d] in which [tokenId] is not found. *)
Definition pending (r : Reply) (d : json) : Prop :=
  exists resp,
    r = Answer resp /\ status_code resp = 200 /\
    json_body resp = Some d /\ contains "tokenId" d = Ok false.

(** A reply that ends the challenge loop: status 200 and a JSON body [d]
    in which [tokenId] is found. *)
Definition granting (r : Reply) (d : json) : Prop :=
  exists resp,
    r = Answer resp /\ status_code resp = 200 /\
    json_body resp = Some d /\ contains "tokenId" d = Ok true.

Definition fillable (username password : string) (d : json) : Prop :=
  exists d', fill_callbacks username password d = Ok d'.

Definition is_authenticate_post (lib : Lib) (rq : Request) : Prop :=
  exists d, rq = authenticate_post lib d.

(** A server that keeps answering with the same reply. *)
Definition stubborn_world (r : Reply) : World :=
  {| self := Sample.fresh_controller; heap := ∅; log := []; ticks := 0;
     server := fun _ => r; wall := fun _ => 1000 |}.

Definition more_prompts : Reply :=
  Sample.reply 200 "prompts" (Some Sample.prompts) None.

Definition denied : Reply :=
  Sample.reply 401 "denied" (Some (JObj [("code", JInt 401)])) None.

(** A prompt that asks for the user name: type [NameCallback], and
    [output[0]["value"]] is ["User Name"]. *)
Definition username_prompt (cb : json) : Prop :=
  exists d out0 rest,
    cb = JObj d /\
    dict_get "type" d = Some (JStr "NameCallback") /\
    dict_get "output" d = Some (JArr (JObj out0 :: rest)) /\
    dict_get "value" out0 = Some (JStr "User Name").

(** A prompt of type [PasswordCallback]. *)
Definition password_prompt (cb : json) : Prop :=
  exists d, cb = JObj d /\ dict_get "type" d = Some (JStr "PasswordCallback").

(** [cb'] is [cb] with [input[0]["value"]] set to [v], and nothing else
    changed. *)
Definition input_filled (v : string) (cb cb' : json) : Prop :=
  exists d slot rest,
    cb = JObj d /\
    dict_get "input" d = Some (JArr (JObj slot :: rest)) /\
    cb' = JObj (dict_set "input"
                  (JArr (JObj (dict_set "value" (JStr v) slot) :: rest)) d).

Definition prompt_filled (username password : string) (cb cb' : json) : Prop :=
  (username_prompt cb -> input_filled username cb cb') /\
  (password_prompt cb -> input_filled password cb cb') /\
  (~ username_prompt cb -> ~ password_prompt cb -> cb' = cb).

(** A redirect without a [code] field in its [Location]. *)
Definition redirect_without_code : Reply :=
  Sample.reply 302 "" None (Some "com.toyota.oneapp:/oauth2Callback?state=s").

Definition granted : json := JObj [("tokenId", JStr "tid-1")].

Definition token_keys : list string :=
  ["access_token"; "id_token"; "refresh_token"; "expires_in"].

(** The session fields after a token exchange that went through. *)
Definition logged_in (c : Controller) (access refresh uuid : json) (expiry : Z) :
    Controller :=
  {| _username := _username c; _password := _password c;
     _token := access;
     _token_expiration := Some expiry;
     _refresh_token := refresh;
     _uuid := uuid;
     _timeout := _timeout c |}.

(** The world after a call that sent [sent], read the clock once and left
    the controller as [c]. *)
Definition after_exchange (w : World) (sent : list Request) (c : Controller) : World :=
  {| self := c; heap := heap w; log := log w ++ sent; ticks := S (ticks w);
     server := server w; wall := wall w |}.

(** A token reply whose [expires_in] is a string. *)
Definition tokens_with_text_expiry : Reply :=
  Sample.reply 200 "tokens"
    (Some (Sample.tokens "header.uuid-claim.signature" (JStr "3600"))) None.

Definition tokens_for_an_hour : Reply :=
  Sample.reply 200 "tokens"
    (Some (Sample.tokens "header.uuid-claim.signature" (JInt 3600))) None.

Definition tokens_without_refresh : Reply :=
  Sample.reply 200 "tokens"
    (Some (JObj [("access_token", JStr "access-1");
                 ("id_token", JStr "header.uuid-claim.signature");
                 ("expires_in", JInt 3600)])) None.

(** The exceptions that lines 105-113 can raise, part-way through the
    assignments: a subscript that fails, [jwt.decode] raising, a
    [timedelta] or a [datetime] that cannot be built. *)
Definition storing_error (e : exn) : bool :=
  match e with
  | TypeError | KeyError _ | JwtError | OverflowError | ValueError => true
  | _ => false
  end.


(** What a login leaves alone: the caller's dictionaries and the oracles. *)
Definition outside_kept (w w' : World) : Prop :=
  heap w' = heap w /\ server w' = server w /\ wall w' = wall w.


(** The session fields are those of a token exchange that went through. *)
Definition exchanged (c c' : Controller) : Prop :=
  exists access refresh uuid expiry, c' = logged_in c access refresh uuid expiry.



Definition login_for_an_hour : World :=
  Sample.world Sample.fresh_controller
    (Sample.login_script (Sample.tokens "header.uuid-claim.signature" (JInt 3600))
     ++ [Sample.reply 500 "boom" None None])
    1000.

(** The caller's headers after lines 138-153, for a controller [c]. *)
Definition merged_headers (lib : Lib) (c : Controller) (vin : option string)
    (d : dict) : dict :=
  let d1 := dict_update d (session_headers lib c) in
  match vin with
  | Some v => dict_update d1 [("vin", JStr v)]
  | None => d1
  end.

(** A caller's dictionary that already has some of the names the
    controller sets. *)
Definition caller_headers : dict :=
  [("accept", JStr "application/json");
   ("authorization", JStr "Bearer mine");
   ("vin", JStr "OTHER")].

Definition caller_loc : loc := 7%positive.

Definition login_with_headers : World :=
  with_heap (<[caller_loc := caller_headers]> ∅) login_for_an_hour.

(** A controller that has just logged in, facing the replies of a second
    login and of one API call. *)
Definition second_call : World :=
  Sample.world
    (logged_in Sample.fresh_controller (JStr "access-1") (JStr "refresh-1")
       (JStr "user-1") 3600001000)
    (Sample.login_script (Sample.tokens "header.uuid-claim.signature" (JInt 3600))
     ++ [Sample.reply 200 "[]" (Some (JArr [])) None])
    2000.

(** The requests a call adds to the log. *)
Definition sent_by {A} (m : Async A) (w : World) (sent : list Request) : Prop :=
  log (snd (run m w)) = (log w ++ sent)%list.

(** The request a login starts with: the empty challenge state. *)
Definition first_challenge (lib : Lib) : Request :=
  authenticate_post lib (JObj []).

(** A call that sends at most [n] requests, whatever the world. *)
Definition sends_at_most {A} (m : Async A) (n : nat) : Prop :=
  forall w, exists sent, sent_by m w sent /\ (length sent <= n)%nat.

(** The challenge goes through: the replies to the first rounds, with
    bodies [ds], are pending and their prompts can be filled; the reply to
    the next round has status 200 and a body [d] with [tokenId]. *)
Definition challenge_passes (w : World) (ds : list json) (d : json) : Prop :=
  (length ds < 10)%nat /\
  (forall i x, ds !! i = Some x ->
     pending (server w (length (log w) + i)%nat) x /\
     fillable (_username (self w)) (_password (self w)) x) /\
  granting (server w (length (log w) + length ds)%nat) d.

(** The challenge states a login posts when the replies so far had the
    bodies [ds]. *)
Definition challenge_posts (lib : Lib) (w : World) (ds : list json) : list Request :=
  map (fun x => authenticate_post lib
                  (filled (_username (self w)) (_password (self w)) x))
      (JObj [] :: ds).
Arguments challenge_posts : simpl never.

(** The reply to the [n]-th request a call sends from [w]. *)
Definition reply_at (w : World) (n : nat) : Reply :=
  server w (length (log w) + n)%nat.

(** A redirect whose [Location] query has the field [code]. *)
Definition redirects_with (lib : Lib) (r : Reply) (code : list string) : Prop :=
  exists resp url q,
    r = Answer resp /\ status_code resp = 302 /\
    location resp = Some url /\ url_query lib url = Some q /\
    assoc_get "code" (parse_qs lib q) = Some code.

(** Sample exchanges that stop part-way. *)
Definition refused_after_prompts : World :=
  Sample.world Sample.fresh_controller
    [more_prompts; Sample.reply 500 "boom" None None] 1000.

Definition refused_authorization : World :=
  Sample.world Sample.fresh_controller
    [more_prompts;
     Sample.reply 200 "token id" (Some granted) None;
     Sample.reply 403 "forbidden" None None] 1000.

Definition refused_tokens : World :=
  Sample.world Sample.fresh_controller
    [more_prompts;
     Sample.reply 200 "token id" (Some granted) None;
     Sample.reply 302 "" None (Some "com.toyota.oneapp:/oauth2Callback?code=code-1&state=s");
     Sample.reply 503 "later" None None] 1000.

(** The fields given at construction. *)
Definition same_credentials (c c' : Controller) : Prop :=
  _username c' = _username c /\ _password c' = _password c /\
  _timeout c' = _timeout c.

(** A coroutine in which every assignment to the controller leaves the
    fields given at construction alone. *)
Inductive keeps_credentials {A : Type} : Async A -> Prop :=
| kc_ret a : keeps_credentials (Ret a)
| kc_throw e : keeps_credentials (Throw e)
| kc_get k : (forall c, keeps_credentials (k c)) -> keeps_credentials (GetSelf k)
| kc_set f k :
    (forall c, same_credentials c (f c)) -> keeps_credentials k ->
    keeps_credentials (SetSelf f k)
| kc_now k : (forall t, keeps_credentials (k t)) -> keeps_credentials (Now k)
| kc_await rq k :
    (forall resp, keeps_credentials (k resp)) -> keeps_credentials (Await rq k)
| kc_new k : (forall l, keeps_credentials (k l)) -> keeps_credentials (NewDict k)
| kc_read l k : (forall d, keeps_credentials (k d)) -> keeps_credentials (ReadDict l k)
| kc_update l upd k : keeps_credentials k -> keeps_credentials (UpdateDict l upd k).
(** ** Properties *)

(** *** Running a coroutine *)

Lemma run_bind {A B} (m : Async A) (k : A -> Async B) : forall w,
  run (bind m k) w =
  match run m w with
  | (Ok a, w') => run (k a) w'
  | (Raise e, w') => (Raise e, w')
  end.
Proof.
  induction m as [a|e|c IH|f c IH|c IH|rq c IH|c IH|l c IH|l upd c IH];
    intros w; simpl; auto.
  destruct (server w (length (log w))); auto.
Qed.

Lemma run_lift {A} (r : result A) w : run (lift r) w = (r, w).
Proof. now destruct r. Qed.

Lemma run_try {A B} (r : result A) (k : A -> Async B) w :
  run (bind (lift r) k) w =
  match r with
  | Ok a => run (k a) w
  | Raise e => (Raise e, w)
  end.
Proof. now destruct r. Qed.

(** *** Dictionaries *)

Lemma dict_get_set_eq k v d : dict_get k (dict_set k v d) = Some v.
Proof.
  induction d as [|[k' v'] d IH]; simpl.
  - now rewrite String.eqb_refl.
  - destruct (String.eqb k k') eqn:E; simpl; rewrite ?String.eqb_refl, ?E; auto.
Qed.

Lemma dict_get_set_ne k k' v d :
  k <> k' -> dict_get k' (dict_set k v d) = dict_get k' d.
Proof.
  intros Hne. induction d as [|[k0 v0] d IH]; simpl.
  - destruct (String.eqb k' k) eqn:E; auto.
    apply String.eqb_eq in E. congruence.
  - destruct (String.eqb k k0) eqn:E; simpl.
    + apply String.eqb_eq in E. subst k0.
      destruct (String.eqb k' k) eqn:E'; auto.
      apply String.eqb_eq in E'. congruence.
    + now rewrite IH.
Qed.

(** After [d.update(upd)], a key of [upd] reads the last value [upd] gives
    it, and any other key reads what it read in [d]. *)
Lemma dict_get_update k d upd :
  dict_get k (dict_update d upd) =
  match dict_get k (rev upd) with
  | Some v => Some v
  | None => dict_get k d
  end.
Proof.
  unfold dict_update. revert d.
  induction upd as [|[k0 v0] upd IH]; intros d; simpl; auto.
  rewrite IH. clear IH.
  assert (Happ : forall l, dict_get k (l ++ [(k0, v0)])%list =
            match dict_get k l with
            | Some v => Some v
            | None => if String.eqb k k0 then Some v0 else None
            end).
  { induction l as [|[k1 v1] l IHl]; simpl; auto.
    destruct (String.eqb k k1); auto. }
  rewrite Happ. destruct (dict_get k (rev upd)); auto.
  destruct (String.eqb k k0) eqn:E.
  - apply String.eqb_eq in E. subst. apply dict_get_set_eq.
  - apply dict_get_set_ne. intros ->. now rewrite String.eqb_refl in E.
Qed.

(** *** The session-validity check *)

(** What [_is_token_valid] computes: it answers [True] exactly when the
    stored token is falsy, an expiry is stored and that expiry is after the
    clock reading. *)
Lemma is_token_valid_spec lib w :
  run (_is_token_valid lib) w =
  if truthy lib (_token (self w)) then (Ok false, w)
  else match _token_expiration (self w) with
       | None => (Ok false, w)
       | Some expiry =>
           (Ok (expiry >? wall w (ticks w)), with_ticks (S (ticks w)) w)
       end.
Proof.
  unfold _is_token_valid. simpl.
  destruct (truthy lib (_token (self w))); auto.
  destruct (_token_expiration (self w)); auto.
Qed.

(** C1 (the code departs from the claim): whenever an access token is
    stored (a truthy [_token]), [_is_token_valid] returns [False], whatever
    the stored expiry is, also when it lies strictly in the future. *)
Theorem is_token_valid_false_with_token lib w :
  truthy lib (_token (self w)) = true ->
  run (_is_token_valid lib) w = (Ok false, w).
Proof.
  intros H. rewrite is_token_valid_spec. now rewrite H.
Qed.

(** A token is stored, the expiry 5000 is after the clock reading 1000, and
    the check answers [False]. *)
Lemma is_token_valid_false_with_token_witness :
  _token_expiration logged_in_controller = Some 5000 /\
  5000 > 1000 /\
  run (_is_token_valid Sample.lib) (Sample.world logged_in_controller [] 1000)
  = (Ok false, Sample.world logged_in_controller [] 1000).
Proof.
  split; [reflexivity | split; [lia |]].
  apply (is_token_valid_false_with_token Sample.lib
           (Sample.world logged_in_controller [] 1000)).
  reflexivity.
Defined.

(** The check answers [True] only for a falsy token with a stored expiry
    that is after the clock reading. *)
Lemma is_token_valid_true lib w w' :
  run (_is_token_valid lib) w = (Ok true, w') ->
  truthy lib (_token (self w)) = false /\
  exists expiry, _token_expiration (self w) = Some expiry /\
                 expiry > wall w (ticks w).
Proof.
  rewrite is_token_valid_spec.
  destruct (truthy lib (_token (self w))); [discriminate |].
  destruct (_token_expiration (self w)) as [expiry|]; [|discriminate].
  intros H. injection H as H _. split; [reflexivity |].
  exists expiry. split; [reflexivity |]. now apply Z.gtb_lt in H; lia.
Qed.

(** With a session found invalid, [request_raw] goes straight into the
    login: nothing stands between the check and [_update_token]. *)
Lemma ensure_token_invalid lib w :
  fst (run (_is_token_valid lib) w) = Ok false ->
  run (ensure_token lib) w
  = run (_update_token lib) (snd (run (_is_token_valid lib) w)).
Proof.
  unfold ensure_token. rewrite run_bind.
  destruct (run (_is_token_valid lib) w) as [[[|]|e] w1]; simpl;
    try discriminate.
  reflexivity.
Qed.

(** A controller whose token has an hour to live logs in again on its next
    call: four login requests go out before the API request. *)
Example request_after_login_logs_in_again :
  _token_expiration (self second_call) = Some 3600001000 /\
  wall second_call (ticks second_call) = 2000 /\
  map rq_url (log (snd (run (request_raw Sample.lib "GET" "/v1/x" None None None None)
                          second_call)))
  = ["https://login.example/authenticate";
     "https://login.example/authenticate";
     "https://login.example/authorize";
     "https://login.example/access_token";
     "https://api.example/v1/x"].
Proof. repeat split. Qed.

(** *** The method allow-list *)

(** C2: a method other than GET, POST, PUT, DELETE makes [request_raw] and
    [request_json] raise [ToyotaInternalError] at once: the world is left as
    it was (no clock reading, no login, no request sent, session state and
    caller dictionaries untouched). *)
Theorem request_invalid_method lib method endpoint vin body params headers w :
  ~ In method allowed_methods ->
  run (request_raw lib method endpoint vin body params headers) w
  = (Raise (ToyotaInternalError "Invalid request method provided"), w) /\
  run (request_json lib method endpoint vin body params headers) w
  = (Raise (ToyotaInternalError "Invalid request method provided"), w).
Proof.
  intros Hnot.
  assert (E : existsb (String.eqb method) allowed_methods = false).
  { destruct (existsb (String.eqb method) allowed_methods) eqn:E; auto.
    apply existsb_exists in E. destruct E as [m [Hin Heq]].
    apply String.eqb_eq in Heq. subst m. contradiction. }
  assert (R : run (request_raw lib method endpoint vin body params headers) w
              = (Raise (ToyotaInternalError "Invalid request method provided"), w)).
  { unfold request_raw. rewrite E. reflexivity. }
  split; [exact R |].
  unfold request_json. rewrite run_bind. now rewrite R.
Qed.

Lemma request_invalid_method_witness :
  run (request_raw Sample.lib "PATCH" "/v1/x" None None None None)
    (Sample.world Sample.fresh_controller [] 1000)
  = (Raise (ToyotaInternalError "Invalid request method provided"),
     Sample.world Sample.fresh_controller [] 1000) /\
  run (request_json Sample.lib "PATCH" "/v1/x" None None None None)
    (Sample.world Sample.fresh_controller [] 1000)
  = (Raise (ToyotaInternalError "Invalid request method provided"),
     Sample.world Sample.fresh_controller [] 1000).
Proof.
  apply (request_invalid_method Sample.lib "PATCH").
  unfold allowed_methods. simpl. intros [H|[H|[H|[H|[]]]]]; discriminate H.
Defined.

(** *** The challenge loop *)

Lemma with_log_id w : with_log (log w) w = w.
Proof. now destruct w. Qed.

Lemma with_log_nil w : with_log (log w ++ []) w = w.
Proof. rewrite app_nil_r. apply with_log_id. Qed.

Lemma last_cons {A} (l : list A) : forall a x, List.last (a :: l) x = List.last l a.
Proof.
  induction l as [|b l IH]; intros a x; [reflexivity |].
  change (List.last (a :: b :: l) x) with (List.last (b :: l) x).
  now rewrite !IH.
Qed.

Section ChallengeLoop.

Variable lib : Lib.

(** One round of the loop, spelled out. *)
Lemma challenge_rounds_S n data w :
  run (challenge_rounds lib (S n) data) w =
  match fill_callbacks (_username (self w)) (_password (self w)) data with
  | Raise e => (Raise e, w)
  | Ok f =>
      let w1 := with_log (log w ++ [authenticate_post lib f]) w in
      match server w (length (log w)) with
      | Failed => (Raise HttpxError, w1)
      | Answer resp =>
          if status_code resp =? 200 then
            match json_body resp with
            | None => (Raise JSONDecodeError, w1)
            | Some d =>
                match contains "tokenId" d with
                | Raise e => (Raise e, w1)
                | Ok true => (Ok d, w1)
                | Ok false => run (challenge_rounds lib n d) w1
                end
            end
          else
            (Raise (ToyotaLoginError
                      ("Authentication Failed. " +:+ str_of_int (status_code resp)
                       +:+ ", " +:+ text resp +:+ ".")), w1)
      end
  end.
Proof.
  simpl.
  destruct (fill_callbacks _ _ data); simpl; auto.
  destruct (server w (length (log w))) as [resp|]; auto.
  destruct (status_code resp =? 200); simpl; auto.
  unfold resp_json.
  destruct (json_body resp) as [d|]; simpl; auto.
  destruct (contains "tokenId" d) as [[|]|]; auto.
Qed.

(** The loop only sends requests: at most [n] of them, each a POST of a
    challenge state to the authenticate endpoint. *)
Lemma challenge_rounds_frame n : forall data w,
  exists sent,
    snd (run (challenge_rounds lib n data) w) = with_log (log w ++ sent) w /\
    (length sent <= n)%nat /\
    Forall (is_authenticate_post lib) sent.
Proof.
  induction n as [|n IH]; intros data w.
  - exists []. simpl. rewrite with_log_nil. auto.
  - assert (One : forall f r,
             exists sent,
               snd (r : result json, with_log (log w ++ [authenticate_post lib f]) w)
               = with_log (log w ++ sent) w /\
               (length sent <= S n)%nat /\ Forall (is_authenticate_post lib) sent).
    { intros f r. exists [authenticate_post lib f]. simpl.
      repeat split; [lia | repeat constructor; now exists f]. }
    rewrite challenge_rounds_S.
    destruct (fill_callbacks _ _ data) as [f|e].
    2:{ exists []. simpl. rewrite with_log_nil. repeat split; [lia | constructor]. }
    cbv zeta.
    destruct (server w (length (log w))) as [resp|]; [|apply One].
    destruct (status_code resp =? 200); [|apply One].
    destruct (json_body resp) as [d|]; [|apply One].
    destruct (contains "tokenId" d) as [[|]|e]; try apply One.
    destruct (IH d (with_log (log w ++ [authenticate_post lib f]) w))
      as [sent [E [L F]]].
    exists (authenticate_post lib f :: sent). rewrite E. simpl.
    rewrite <- app_assoc. simpl. repeat split; [lia |].
    constructor; [now exists f | exact F].
Qed.

(** While the replies are pending, the loop posts the filled states one
    after the other.  [ds] are the bodies of the first replies. *)
Lemma challenge_rounds_prefix ds : forall n data w,
  (length ds <= n)%nat ->
  (forall i d, ds !! i = Some d ->
               pending (server w (length (log w) + i)%nat) d) ->
  (forall i d, (data :: ds) !! i = Some d -> (i < length ds)%nat ->
               fillable (_username (self w)) (_password (self w)) d) ->
  run (challenge_rounds lib n data) w =
  run (challenge_rounds lib (n - length ds) (List.last ds data))
    (with_log
       (log w ++ map (fun d => authenticate_post lib
                                 (filled (_username (self w)) (_password (self w)) d))
                     (take (length ds) (data :: ds)))
       w).
Proof.
  induction ds as [|d ds IH]; intros n data w Hn Hpend Hfill.
  - simpl. rewrite Nat.sub_0_r, with_log_nil. reflexivity.
  - destruct n as [|n]; [simpl in Hn; lia |].
    rewrite challenge_rounds_S.
    destruct (Hfill 0%nat data eq_refl) as [f Hf]; [simpl; lia |].
    rewrite Hf. cbv zeta.
    destruct (Hpend 0%nat d eq_refl) as [resp [Hr [Hs [Hj Hc]]]].
    rewrite Nat.add_0_r in Hr. rewrite Hr, Hs. simpl Z.eqb. cbv iota.
    rewrite Hj, Hc.
    rewrite (IH n d (with_log (log w ++ [authenticate_post lib f]) w)).
    + simpl length. simpl Nat.sub.
      rewrite last_cons.
      f_equal. simpl. unfold filled at 2. rewrite Hf.
      rewrite <- app_assoc. reflexivity.
    + simpl in Hn. lia.
    + intros i d' Hi. simpl. rewrite length_app. simpl.
      replace (length (log w) + 1 + i)%nat with (length (log w) + S i)%nat by lia.
      apply Hpend. exact Hi.
    + intros i d' Hi Hlt. simpl.
      apply (Hfill (S i) d'); [exact Hi | simpl; lia].
Qed.

End ChallengeLoop.

Lemma take_snoc_last {A} (l : list A) : forall a,
  (take (length l) (a :: l) ++ [List.last l a])%list = a :: l.
Proof.
  induction l as [|b l IH]; intros a; [reflexivity |].
  rewrite last_cons. simpl. f_equal. apply (IH b).
Qed.

Lemma fill_callbacks_empty u p : fill_callbacks u p (JObj []) = Ok (JObj []).
Proof. reflexivity. Qed.

(** C3 (amended): the challenge loop never sends more than ten POSTs.  When
    the first ten replies all have status 200 and a JSON body without
    [tokenId] (and the prompts of the first nine can be filled), [login]
    sends exactly ten POSTs to the authenticate endpoint, nothing else, and
    raises [ToyotaLoginError("Authentication Failed. Unknown method.")].
    When the reply of an earlier round carries [tokenId], the loop stops
    with that round: no further challenge state is posted. *)
Theorem challenge_loop_round_cap lib w :
  let u := _username (self w) in
  let p := _password (self w) in
  let post := fun d => authenticate_post lib (filled u p d) in
  (forall data, exists sent,
      snd (run (challenge_rounds lib 10 data) w) = with_log (log w ++ sent) w /\
      (length sent <= 10)%nat /\
      Forall (is_authenticate_post lib) sent) /\
  (forall ds,
      length ds = 10%nat ->
      (forall i d, ds !! i = Some d ->
                   pending (server w (length (log w) + i)%nat) d) ->
      (forall i d, ds !! i = Some d -> (i < 9)%nat -> fillable u p d) ->
      run (login lib) w =
      (Raise (ToyotaLoginError "Authentication Failed. Unknown method."),
       with_log (log w ++ map post (JObj [] :: take 9 ds)) w)) /\
  (forall ds d,
      (length ds < 10)%nat ->
      (forall i d, ds !! i = Some d ->
                   pending (server w (length (log w) + i)%nat) d) ->
      (forall i d, ds !! i = Some d -> fillable u p d) ->
      granting (server w (length (log w) + length ds)%nat) d ->
      run (challenge_rounds lib 10 (JObj [])) w =
      (Ok d, with_log (log w ++ map post (JObj [] :: ds)) w)).
Proof.
  intros u p post. split; [|split].
  - intros data. apply challenge_rounds_frame.
  - intros ds Hlen Hpend Hfill.
    unfold login, _update_token. rewrite run_bind.
    rewrite (challenge_rounds_prefix lib ds 10 (JObj []) w); [| lia | exact Hpend |].
    + rewrite Hlen. simpl Nat.sub. simpl challenge_rounds. unfold ret.
      simpl run at 1. cbv iota. rewrite run_bind.
      assert (Hlast : contains "tokenId" (List.last ds (JObj [])) = Ok false).
      { destruct ds as [|d0 ds] using rev_ind; [discriminate Hlen |].
        rewrite last_last.
        destruct (Hpend (length ds) d0) as [resp [_ [_ [_ Hc]]]]; [| exact Hc].
        rewrite lookup_app_r by lia. now rewrite Nat.sub_diag. }
      unfold authorize. rewrite run_try, Hlast. reflexivity.
    + intros i d Hi Hlt. destruct i as [|i].
      * injection Hi as <-. eexists. apply fill_callbacks_empty.
      * apply (Hfill i d Hi). lia.
  - intros ds d Hlen Hpend Hfill [resp [Hr [Hs [Hj Hc]]]].
    rewrite (challenge_rounds_prefix lib ds 10 (JObj []) w); [| lia | exact Hpend |].
    + destruct (10 - length ds)%nat as [|m] eqn:Em; [lia |].
      rewrite challenge_rounds_S. simpl self. simpl log.
      assert (Hf : fillable u p (List.last ds (JObj []))).
      { destruct ds as [|d0 ds] using rev_ind.
        - eexists. apply fill_callbacks_empty.
        - rewrite last_last. apply (Hfill (length ds) d0).
          rewrite lookup_app_r by lia. now rewrite Nat.sub_diag. }
      destruct Hf as [f Hf]. fold u p. rewrite Hf. cbv zeta.
      simpl server. rewrite length_app, length_map, length_take.
      simpl length. replace (length ds `min` S (length ds))%nat with (length ds) by lia.
      rewrite Hr, Hs. simpl Z.eqb. cbv iota. rewrite Hj, Hc.
      f_equal. simpl with_log. unfold with_log at 1. simpl.
      unfold with_log. f_equal. rewrite <- app_assoc. f_equal.
      change (post (JObj []) :: map post ds) with (map post (JObj [] :: ds)).
      rewrite <- (take_snoc_last ds (JObj [])) at 2.
      rewrite map_app. f_equal. simpl. unfold post, filled. now rewrite Hf.
    + intros i d' Hi Hlt. destruct i as [|i].
      * injection Hi as <-. eexists. apply fill_callbacks_empty.
      * apply (Hfill i d' Hi).
Qed.

Lemma challenge_loop_round_cap_witness :
  run (login Sample.lib) (stubborn_world more_prompts) =
  (Raise (ToyotaLoginError "Authentication Failed. Unknown method."),
   with_log
     (authenticate_post Sample.lib (JObj [])
      :: replicate 9 (authenticate_post Sample.lib
                        (filled "alice" "secret" Sample.prompts)))
     (stubborn_world more_prompts)) /\
  run (challenge_rounds Sample.lib 10 (JObj []))
    (Sample.world Sample.fresh_controller
       (Sample.login_script (Sample.tokens "header.uuid-claim.signature" (JInt 3600)))
       1000) =
  (Ok (JObj [("tokenId", JStr "tid-1")]),
   with_log
     [authenticate_post Sample.lib (JObj []);
      authenticate_post Sample.lib (filled "alice" "secret" Sample.prompts)]
     (Sample.world Sample.fresh_controller
        (Sample.login_script (Sample.tokens "header.uuid-claim.signature" (JInt 3600)))
        1000)).
Proof.
  split.
  - apply (proj1 (proj2 (challenge_loop_round_cap Sample.lib (stubborn_world more_prompts)))
             (replicate 10 Sample.prompts)).
    + reflexivity.
    + intros i d Hi. apply lookup_replicate in Hi. destruct Hi as [-> _].
      eexists. repeat split; reflexivity.
    + intros i d Hi _. apply lookup_replicate in Hi. destruct Hi as [-> _].
      eexists. reflexivity.
  - apply (proj2 (proj2 (challenge_loop_round_cap Sample.lib
             (Sample.world Sample.fresh_controller
                (Sample.login_script (Sample.tokens "header.uuid-claim.signature" (JInt 3600)))
                1000)))
             [Sample.prompts] (JObj [("tokenId", JStr "tid-1")])).
    + simpl. lia.
    + intros [|[|i]] d Hi; try discriminate Hi. injection Hi as <-.
      eexists. repeat split; reflexivity.
    + intros [|[|i]] d Hi; try discriminate Hi. injection Hi as <-.
      eexists. reflexivity.
    + eexists. repeat split; reflexivity.
Defined.

(** C3 as stated does not hold: no reply of this server carries [tokenId],
    and the login fails after one POST with the error of the status check,
    not with the one of the round cap. *)
Lemma challenge_loop_status_error_first :
  (forall n resp, server (stubborn_world denied) n = Answer resp ->
     exists d, json_body resp = Some d /\ contains "tokenId" d = Ok false) /\
  run (login Sample.lib) (stubborn_world denied) =
  (Raise (ToyotaLoginError "Authentication Failed. 401, denied."),
   with_log [authenticate_post Sample.lib (JObj [])] (stubborn_world denied)) /\
  fst (run (login Sample.lib) (stubborn_world denied)) <>
  Raise (ToyotaLoginError "Authentication Failed. Unknown method.").
Proof.
  split; [|split].
  - intros n resp H. injection H as <-. eexists. split; reflexivity.
  - reflexivity.
  - discriminate.
Qed.

(** *** Filling the prompts *)

Lemma eq_str_true v s : eq_str v s = true <-> v = JStr s.
Proof.
  destruct v; simpl; try (split; [discriminate | discriminate]).
  rewrite String.eqb_eq. split; congruence.
Qed.

Lemma rmap_Forall2 {A B} (f : A -> result B) xs : forall ys,
  rmap f xs = Ok ys -> Forall2 (fun x y => f x = Ok y) xs ys.
Proof.
  induction xs as [|x xs IH]; intros ys H; simpl in H.
  - injection H as <-. constructor.
  - destruct (f x) as [y|] eqn:Ex; [|discriminate H]. simpl in H.
    destruct (rmap f xs) as [ys'|] eqn:Er; [|discriminate H]. simpl in H.
    injection H as <-. constructor; auto.
Qed.

Lemma set_input_value_ok cb v cb' :
  set_input_value cb v = Ok cb' -> input_filled v cb cb'.
Proof.
  unfold set_input_value, input_filled.
  destruct cb as [| | | | | |d]; try discriminate. simpl.
  destruct (dict_get "input" d) as [inp|] eqn:Ei; [|discriminate]. simpl.
  destruct inp as [| | | |s|xs|o]; try discriminate.
  - destruct s; discriminate.
  - destruct xs as [|slot rest]; [discriminate |]. simpl.
    destruct slot as [| | | | | |sd]; try discriminate. simpl.
    intros H. injection H as <-. now exists d, sd, rest.
Qed.

(** The test of line 54 holds exactly for the prompts that ask for the
    user name; where it cannot be evaluated, the round raises. *)
Lemma fill_callback_ok u p cb cb' :
  fill_callback u p cb = Ok cb' -> prompt_filled u p cb cb'.
Proof.
  unfold fill_callback, prompt_filled.
  destruct cb as [| | | | | |d]; try discriminate. simpl.
  destruct (dict_get "type" d) as [ty|] eqn:Et; [|discriminate]. simpl.
  destruct (eq_str ty "NameCallback") eqn:En.
  - apply eq_str_true in En. subst ty.
    destruct (dict_get "output" d) as [out|] eqn:Eo; [|discriminate]. simpl.
    assert (Hnp : ~ password_prompt (JObj d)).
    { intros [d' [E T]]. injection E as <-. rewrite Et in T. discriminate T. }
    destruct out as [| | | |s|xs|o]; try discriminate.
    { destruct s; discriminate. }
    destruct xs as [|out0 rest]; [discriminate |]. simpl.
    destruct out0 as [| | | | | |od]; try discriminate. simpl.
    destruct (dict_get "value" od) as [v|] eqn:Ev; [|discriminate]. simpl.
    destruct (eq_str v "User Name") eqn:Eu.
    + apply eq_str_true in Eu. subst v. intros H.
      apply set_input_value_ok in H. repeat split; auto.
      * intros Hp. contradiction.
      * intros Hnu. exfalso. apply Hnu. now exists d, od, rest.
    + simpl. intros H. injection H as <-.
      assert (Hnu : ~ username_prompt (JObj d)).
      { intros [d' [o' [r' [E [_ [O V]]]]]]. injection E as <-.
        rewrite Eo in O. injection O as <- <-. rewrite Ev in V.
        injection V as ->. simpl in Eu. discriminate Eu. }
      repeat split; auto; intros; contradiction.
  - simpl.
    assert (Hnu : ~ username_prompt (JObj d)).
    { intros [d' [o' [r' [E [T _]]]]]. injection E as <-.
      rewrite Et in T. injection T as ->. simpl in En. discriminate En. }
    destruct (eq_str ty "PasswordCallback") eqn:Ep.
    + apply eq_str_true in Ep. subst ty. intros H.
      apply set_input_value_ok in H. repeat split; auto.
      * intros; contradiction.
      * intros _ Hnp. exfalso. apply Hnp. now exists d.
    + intros H. injection H as <-.
      repeat split; auto. 
      * intros; contradiction.
      * intros [d' [E T]]. injection E as <-. rewrite Et in T.
        injection T as ->. simpl in Ep. discriminate Ep.
Qed.

(** C8: when a round resubmits a challenge state whose [callbacks] is the
    list [items], the state it posts is the received one with that list
    replaced prompt by prompt: the user-name prompt has [input[0]["value"]]
    set to the stored username, every [PasswordCallback] prompt has it set to
    the stored password, and every other prompt is the one received. *)
Theorem fill_callbacks_prompts lib n w d items data' :
  let u := _username (self w) in
  let p := _password (self w) in
  dict_get "callbacks" d = Some (JArr items) ->
  fill_callbacks u p (JObj d) = Ok data' ->
  (exists items',
      data' = JObj (dict_set "callbacks" (JArr items') d) /\
      Forall2 (prompt_filled u p) items items') /\
  (exists rest,
      log (snd (run (challenge_rounds lib (S n) (JObj d)) w))
      = (log w ++ authenticate_post lib data' :: rest)%list).
Proof.
  intros u p Hcb Hfill. split.
  - unfold fill_callbacks in Hfill. simpl in Hfill.
    rewrite Hcb in Hfill. simpl in Hfill.
    destruct (rmap (fill_callback u p) items) as [items'|] eqn:Er;
      [|discriminate Hfill].
    simpl in Hfill. injection Hfill as <-.
    exists items'. split; [reflexivity |].
    apply rmap_Forall2 in Er.
    eapply Forall2_impl; [exact Er |].
    intros cb cb'. apply fill_callback_ok.
  - rewrite challenge_rounds_S. fold u p. rewrite Hfill. cbv zeta.
    set (w1 := with_log (log w ++ [authenticate_post lib data']) w).
    assert (One : forall r : result json,
               exists rest, log (snd (r, w1))
                            = (log w ++ authenticate_post lib data' :: rest)%list).
    { intros r. exists []. reflexivity. }
    destruct (server w (length (log w))) as [resp|]; [|apply One].
    destruct (status_code resp =? 200); [|apply One].
    destruct (json_body resp) as [d1|]; [|apply One].
    destruct (contains "tokenId" d1) as [[|]|e]; try apply One.
    destruct (challenge_rounds_frame lib n d1 w1) as [sent [E _]].
    rewrite E. exists sent. simpl. now rewrite <- app_assoc.
Qed.

Lemma fill_callbacks_prompts_witness :
  (exists items',
      JObj (Sample.challenge "alice" "secret")
      = JObj (dict_set "callbacks" (JArr items') (Sample.challenge "" "")) /\
      Forall2 (prompt_filled "alice" "secret")
        [Sample.name_prompt ""; Sample.secret_prompt ""; Sample.text_prompt]
        items') /\
  (exists rest,
      log (snd (run (challenge_rounds Sample.lib 1 Sample.prompts)
                  (stubborn_world more_prompts)))
      = authenticate_post Sample.lib (JObj (Sample.challenge "alice" "secret")) :: rest).
Proof.
  apply (fill_callbacks_prompts Sample.lib 0 (stubborn_world more_prompts)
           (Sample.challenge "" "")
           [Sample.name_prompt ""; Sample.secret_prompt ""; Sample.text_prompt]
           (JObj (Sample.challenge "alice" "secret"))).
  - reflexivity.
  - reflexivity.
Defined.

(** *** The authorization step *)

Section Authorize.

Variable lib : Lib.

(** The step spelled out, for a challenge state that carries [tokenId]. *)
Lemma authorize_granted data token_id w :
  contains "tokenId" data = Ok true ->
  getitem data "tokenId" = Ok token_id ->
  run (authorize lib data) w =
  let w1 := with_log (log w ++ [authorize_get lib token_id]) w in
  match server w (length (log w)) with
  | Failed => (Raise HttpxError, w1)
  | Answer resp =>
      if status_code resp =? 302 then (location_code lib resp, w1)
      else (Raise (ToyotaLoginError
                     ("Authorization failed. " +:+ str_of_int (status_code resp)
                      +:+ ", " +:+ text resp +:+ ".")), w1)
  end.
Proof.
  intros Hc Hg. unfold authorize.
  rewrite run_try, Hc. simpl negb. cbv iota.
  rewrite run_try, Hg. simpl.
  destruct (server w (length (log w))) as [resp|]; auto.
  destruct (status_code resp =? 302); simpl; [apply run_lift | reflexivity].
Qed.

(** The step sends at most the one GET and touches nothing else. *)
Lemma authorize_frame data w :
  exists sent, snd (run (authorize lib data) w) = with_log (log w ++ sent) w.
Proof.
  unfold authorize. rewrite run_try.
  destruct (contains "tokenId" data) as [[|]|]; simpl;
    try (exists []; now rewrite with_log_nil).
  destruct (getitem data "tokenId") as [tid|]; simpl;
    try (exists []; now rewrite with_log_nil).
  exists [authorize_get lib tid].
  destruct (server w (length (log w))) as [resp|]; auto.
  destruct (status_code resp =? 302); simpl; [now rewrite run_lift | reflexivity].
Qed.

(** A reply that is not a 302 fails the login with [ToyotaLoginError]. *)
Lemma authorize_not_found data token_id w resp :
  contains "tokenId" data = Ok true ->
  getitem data "tokenId" = Ok token_id ->
  server w (length (log w)) = Answer resp ->
  status_code resp <> 302 ->
  run (authorize lib data) w =
  (Raise (ToyotaLoginError
            ("Authorization failed. " +:+ str_of_int (status_code resp)
             +:+ ", " +:+ text resp +:+ ".")),
   with_log (log w ++ [authorize_get lib token_id]) w).
Proof.
  intros Hc Hg Hr Hs. rewrite (authorize_granted _ _ _ Hc Hg), Hr. cbv zeta.
  destruct (Z.eqb_spec (status_code resp) 302); [contradiction | reflexivity].
Qed.

(** The code is only ever taken from a 302 reply whose [Location] query
    has a [code] field. *)
Lemma authorize_code data w code :
  fst (run (authorize lib data) w) = Ok code ->
  exists resp url q,
    server w (length (log w)) = Answer resp /\
    status_code resp = 302 /\
    location resp = Some url /\
    url_query lib url = Some q /\
    assoc_get "code" (parse_qs lib q) = Some code.
Proof.
  unfold authorize. rewrite run_try.
  destruct (contains "tokenId" data) as [[|]|]; simpl; try discriminate.
  destruct (getitem data "tokenId") as [tid|]; simpl; try discriminate.
  destruct (server w (length (log w))) as [resp|]; try discriminate.
  destruct (Z.eqb_spec (status_code resp) 302) as [Hs|]; simpl; try discriminate.
  rewrite run_lift. simpl. unfold location_code.
  destruct (location resp) as [url|] eqn:El; try discriminate.
  destruct (url_query lib url) as [q|] eqn:Eq; try discriminate.
  destruct (assoc_get "code" (parse_qs lib q)) as [vs|] eqn:Ec; try discriminate.
  intros H. injection H as <-. now exists resp, url, q.
Qed.

End Authorize.

(** C6 (the code departs from the claim): a 302 reply whose [Location]
    query has no [code] field makes the authorization step raise
    [KeyError("code")], which is not a [ToyotaLoginError]. *)
Theorem authorize_redirect_without_code lib data token_id w resp url q :
  contains "tokenId" data = Ok true ->
  getitem data "tokenId" = Ok token_id ->
  server w (length (log w)) = Answer resp ->
  status_code resp = 302 ->
  location resp = Some url ->
  url_query lib url = Some q ->
  assoc_get "code" (parse_qs lib q) = None ->
  run (authorize lib data) w =
  (Raise (KeyError "code"), with_log (log w ++ [authorize_get lib token_id]) w).
Proof.
  intros Hc Hg Hr Hs Hl Hq Hn.
  rewrite (authorize_granted _ _ _ _ Hc Hg), Hr, Hs. simpl.
  unfold location_code. now rewrite Hl, Hq, Hn.
Qed.

Lemma authorize_redirect_without_code_witness :
  run (authorize Sample.lib granted) (stubborn_world redirect_without_code) =
  (Raise (KeyError "code"),
   with_log [authorize_get Sample.lib (JStr "tid-1")]
     (stubborn_world redirect_without_code)).
Proof.
  apply (authorize_redirect_without_code Sample.lib granted (JStr "tid-1")
           (stubborn_world redirect_without_code)
           {| status_code := 302; text := ""; json_body := None;
              location := Some "com.toyota.oneapp:/oauth2Callback?state=s" |}
           "com.toyota.oneapp:/oauth2Callback?state=s" "state=s");
    reflexivity.
Defined.

(** The same reply inside a whole login: the challenge is passed, the
    redirect has no code, and [login] ends in [KeyError]. *)
Example login_redirect_without_code :
  fst (run (login Sample.lib)
         (Sample.world Sample.fresh_controller
            [Sample.reply 200 "token id" (Some granted) None; redirect_without_code]
            1000))
  = Raise (KeyError "code").
Proof. reflexivity. Qed.

(** *** The token exchange *)

Lemma tokens_missing_iff d :
  tokens_missing (JObj d) = Ok true <->
  exists k, In k token_keys /\ dict_get k d = None.
Proof.
  unfold tokens_missing, token_keys. simpl.
  destruct (dict_get "access_token" d) eqn:Ea; simpl.
  2:{ split; [|reflexivity]. intros _. exists "access_token". split; [simpl; tauto | assumption]. }
  destruct (dict_get "id_token" d) eqn:Ei; simpl.
  2:{ split; [|reflexivity]. intros _. exists "id_token". split; [simpl; tauto | assumption]. }
  destruct (dict_get "refresh_token" d) eqn:Er; simpl.
  2:{ split; [|reflexivity]. intros _. exists "refresh_token". split; [simpl; tauto | assumption]. }
  destruct (dict_get "expires_in" d) eqn:Ee; simpl.
  2:{ split; [|reflexivity]. intros _. exists "expires_in". split; [simpl; tauto | assumption]. }
  split; [discriminate |].
  intros [k [[<-|[<-|[<-|[<-|[]]]]] Hk]]; congruence.
Qed.

Lemma tokens_missing_obj d :
  exists b, tokens_missing (JObj d) = Ok b.
Proof.
  unfold tokens_missing. simpl.
  destruct (dict_get "access_token" d), (dict_get "id_token" d),
    (dict_get "refresh_token" d), (dict_get "expires_in" d); simpl; eauto.
Qed.

Section Exchange.

Variable lib : Lib.

(** The exchange up to the test of lines 97-102, spelled out. *)
Lemma exchange_unfold code w :
  run (exchange lib code) w =
  let w1 := with_log (log w ++ [token_post lib code]) w in
  match server w (length (log w)) with
  | Failed => (Raise HttpxError, w1)
  | Answer resp =>
      if status_code resp =? 200 then
        match json_body resp with
        | None => (Raise JSONDecodeError, w1)
        | Some t =>
            match tokens_missing t with
            | Raise e => (Raise e, w1)
            | Ok true =>
                (Raise (ToyotaLoginError
                          ("Token retrieval failed. Missing Tokens. "
                           +:+ str_of_int (status_code resp) +:+ ", "
                           +:+ text resp +:+ ".")), w1)
            | Ok false => run (store_tokens lib t) w1
            end
        end
      else
        (Raise (ToyotaLoginError
                  ("Token retrieval failed. " +:+ str_of_int (status_code resp)
                   +:+ ", " +:+ text resp +:+ ".")), w1)
  end.
Proof.
  unfold exchange. simpl.
  destruct (server w (length (log w))) as [resp|]; auto.
  destruct (status_code resp =? 200); simpl; auto.
  unfold resp_json.
  destruct (json_body resp) as [t|]; simpl; auto.
  destruct (tokens_missing t) as [[|]|]; auto.
Qed.

Lemma timedelta_seconds_error v e :
  timedelta_seconds lib v = Raise e -> storing_error e = true.
Proof.
  destruct v as [|b|n|x|s|xs|d]; simpl; intros H;
    try (injection H as <-; reflexivity).
  - destruct b; discriminate H.
  - destruct (_ >? _); [injection H as <-; reflexivity | discriminate H].
  - destruct (float_timedelta lib x); [discriminate H |].
    injection H as <-. destruct (float_is_nan lib x); reflexivity.
Qed.

Lemma getitem_error v k e : getitem v k = Raise e -> storing_error e = true.
Proof.
  destruct v as [| | | | | |d]; simpl; intros H;
    try (injection H as <-; reflexivity).
  destruct (dict_get k d); [discriminate H | injection H as <-; reflexivity].
Qed.

Lemma datetime_add_error t delta e :
  datetime_add t delta = Raise e -> storing_error e = true.
Proof.
  unfold datetime_add. destruct (_ && _); [discriminate |].
  intros H. injection H as <-. reflexivity.
Qed.

(** Lines 105-113 either run through, leaving the four fields assigned and
    the clock read once, or raise a [storing_error]. *)
Lemma store_tokens_outcome t w :
  match run (store_tokens lib t) w with
  | (Ok _, w') =>
      exists access refresh uuid expiry,
        getitem t "access_token" = Ok access /\
        w' = after_exchange w [] (logged_in (self w) access refresh uuid expiry)
  | (Raise e, w') =>
      storing_error e = true /\ log w' = log w /\ outside_kept w w'
  end.
Proof.
  unfold store_tokens, outside_kept.
  rewrite run_try.
  destruct (getitem t "access_token") as [a|e] eqn:Ea;
    [| now apply getitem_error in Ea].
  simpl bind. simpl run. rewrite run_try.
  destruct (getitem t "refresh_token") as [r|e] eqn:Er;
    [| now apply getitem_error in Er].
  simpl bind. simpl run. rewrite run_try.
  destruct (getitem t "id_token") as [i|e] eqn:Ei;
    [| now apply getitem_error in Ei].
  rewrite run_try.
  destruct (jwt_decode lib i) as [claims|]; [| now auto].
  rewrite run_try.
  destruct (getitem claims "uuid") as [u|e] eqn:Eu;
    [| now apply getitem_error in Eu].
  simpl bind. simpl run. rewrite run_try.
  destruct (getitem t "expires_in") as [x|e] eqn:Ex;
    [| now apply getitem_error in Ex].
  rewrite run_try.
  destruct (timedelta_seconds lib x) as [delta|e] eqn:Ed;
    [| now apply timedelta_seconds_error in Ed].
  rewrite run_try.
  destruct (datetime_add (wall w (ticks w)) delta) as [expiry|e] eqn:Es;
    [| now apply datetime_add_error in Es].
  simpl.
  exists a, r, u, expiry. split; [reflexivity |].
  unfold after_exchange. simpl. now rewrite app_nil_r.
Qed.

(** The seconds of a representable expiry make a representable
    [timedelta]. *)
Lemma timedelta_seconds_int t n :
  is_datetime t -> is_datetime (t + n * 1000000) ->
  timedelta_seconds lib (JInt n) = Ok (n * 1000000) /\
  datetime_add t (n * 1000000) = Ok (t + n * 1000000).
Proof.
  unfold is_datetime, datetime_max, MAXORDINAL, DAY_US. intros Ht Hr. split.
  - simpl.
    assert (Hn : -3652060 <= n / 86400 <= 3652060).
    { split; [apply Z.div_le_lower_bound | apply Z.div_le_upper_bound]; lia. }
    destruct (Z.gtb_spec (Z.abs (n / 86400)) 999999999); [lia | reflexivity].
  - unfold datetime_add, datetime_max, MAXORDINAL, DAY_US. cbv zeta.
    destruct (Z.leb_spec 0 (t + n * 1000000)); [|lia].
    destruct (Z.leb_spec (t + n * 1000000) (3652059 * (86400 * 1000000) - 1));
      [reflexivity | lia].
Qed.

Lemma store_tokens_int d access id_token refresh n claims uuid w :
  dict_get "access_token" d = Some access ->
  dict_get "id_token" d = Some id_token ->
  dict_get "refresh_token" d = Some refresh ->
  dict_get "expires_in" d = Some (JInt n) ->
  jwt_decode lib id_token = Some claims ->
  getitem claims "uuid" = Ok uuid ->
  is_datetime (wall w (ticks w)) ->
  is_datetime (wall w (ticks w) + n * 1000000) ->
  run (store_tokens lib (JObj d)) w =
  (Ok tt, after_exchange w []
            (logged_in (self w) access refresh uuid
               (wall w (ticks w) + n * 1000000))).
Proof.
  intros Ha Hi Hr He Hj Hu Ht Hx.
  destruct (timedelta_seconds_int _ _ Ht Hx) as [Hd Hs].
  assert (Ga : getitem (JObj d) "access_token" = Ok access)
    by (simpl; now rewrite Ha).
  assert (Gr : getitem (JObj d) "refresh_token" = Ok refresh)
    by (simpl; now rewrite Hr).
  assert (Gi : getitem (JObj d) "id_token" = Ok id_token)
    by (simpl; now rewrite Hi).
  assert (Ge : getitem (JObj d) "expires_in" = Ok (JInt n))
    by (simpl; now rewrite He).
  generalize dependent (JObj d). intros t Ga Gr Gi Ge.
  unfold store_tokens.
  rewrite run_try, Ga. simpl bind. simpl run.
  rewrite run_try, Gr. simpl bind. simpl run.
  rewrite run_try, Gi, run_try, Hj, run_try, Hu. simpl bind. simpl run.
  rewrite run_try, Ge, run_try, Hd, run_try. simpl wall. simpl ticks.
  rewrite Hs. simpl.
  unfold after_exchange. simpl. now rewrite app_nil_r.
Qed.

End Exchange.

(** C4 (amended): for a token reply with status 200 and a JSON object as
    body, the exchange raises [ToyotaLoginError("Token retrieval failed.
    Missing Tokens. ...")] exactly when one of [access_token], [id_token],
    [refresh_token], [expires_in] is absent.  When all four are present, the
    identity token decodes to claims with a [uuid], and [expires_in] is an
    integer number of seconds that gives a representable expiry, the
    exchange succeeds: it stores the access token, the refresh token and
    the uuid, and sets the expiry to the clock reading plus [expires_in]
    seconds. *)
Theorem exchange_tokens lib code w resp d :
  server w (length (log w)) = Answer resp ->
  status_code resp = 200 ->
  json_body resp = Some (JObj d) ->
  ((exists k, In k token_keys /\ dict_get k d = None) <->
   fst (run (exchange lib code) w) =
   Raise (ToyotaLoginError
            ("Token retrieval failed. Missing Tokens. 200, " +:+ text resp +:+ "."))) /\
  (forall access id_token refresh n claims uuid,
      dict_get "access_token" d = Some access ->
      dict_get "id_token" d = Some id_token ->
      dict_get "refresh_token" d = Some refresh ->
      dict_get "expires_in" d = Some (JInt n) ->
      jwt_decode lib id_token = Some claims ->
      getitem claims "uuid" = Ok uuid ->
      is_datetime (wall w (ticks w)) ->
      is_datetime (wall w (ticks w) + n * 1000000) ->
      run (exchange lib code) w =
      (Ok tt, after_exchange w [token_post lib code]
                (logged_in (self w) access refresh uuid
                   (wall w (ticks w) + n * 1000000)))).
Proof.
  intros Hr Hs Hj.
  rewrite exchange_unfold, Hr, Hs, Hj. cbv zeta. simpl Z.eqb. cbv iota.
  split.
  - destruct (tokens_missing (JObj d)) as [[|]|e] eqn:Em.
    + split; [reflexivity |]. intros _. now apply tokens_missing_iff.
    + split.
      * intros Hk. apply tokens_missing_iff in Hk. congruence.
      * intros Hf. exfalso.
        pose proof (store_tokens_outcome lib (JObj d)
                      (with_log (log w ++ [token_post lib code]) w)) as Ho.
        destruct (run (store_tokens lib (JObj d)) _) as [[u|e] w'];
          simpl in Hf; [discriminate Hf |].
        destruct Ho as [Ht _]. injection Hf as ->. discriminate Ht.
    + destruct (tokens_missing_obj d) as [b Hb]. congruence.
  - intros access id_token refresh n claims uuid Ha Hi Hf He Hd Hu Ht Hx.
    assert (Hm : tokens_missing (JObj d) = Ok false).
    { destruct (tokens_missing_obj d) as [[|] Hb]; [|exact Hb].
      apply tokens_missing_iff in Hb.
      destruct Hb as [k [[<-|[<-|[<-|[<-|[]]]]] Hk]]; congruence. }
    rewrite Hm.
    rewrite (store_tokens_int lib d access id_token refresh n claims uuid);
      try assumption.
    unfold after_exchange. simpl. now rewrite app_nil_r.
Qed.

Lemma exchange_tokens_witness :
  (exists k, In k token_keys /\
             dict_get k [("access_token", JStr "access-1");
                         ("id_token", JStr "header.uuid-claim.signature");
                         ("expires_in", JInt 3600)] = None) /\
  fst (run (exchange Sample.lib ["code-1"]) (stubborn_world tokens_without_refresh)) =
  Raise (ToyotaLoginError "Token retrieval failed. Missing Tokens. 200, tokens.") /\
  run (exchange Sample.lib ["code-1"]) (stubborn_world tokens_for_an_hour) =
  (Ok tt,
   after_exchange (stubborn_world tokens_for_an_hour)
     [token_post Sample.lib ["code-1"]]
     (logged_in Sample.fresh_controller (JStr "access-1") (JStr "refresh-1")
        (JStr "user-1") (1000 + 3600 * 1000000))).
Proof.
  assert (Hmiss : exists k, In k token_keys /\
             dict_get k [("access_token", JStr "access-1");
                         ("id_token", JStr "header.uuid-claim.signature");
                         ("expires_in", JInt 3600)] = None).
  { exists "refresh_token". split; [simpl; tauto | reflexivity]. }
  split; [exact Hmiss | split].
  - apply (proj1 (proj1 (exchange_tokens Sample.lib ["code-1"]
                           (stubborn_world tokens_without_refresh) _ _
                           eq_refl eq_refl eq_refl)) Hmiss).
  - apply (proj2 (exchange_tokens Sample.lib ["code-1"]
                    (stubborn_world tokens_for_an_hour) _ _
                    eq_refl eq_refl eq_refl)
             (JStr "access-1") (JStr "header.uuid-claim.signature")
             (JStr "refresh-1") 3600 (JObj [("uuid", JStr "user-1")])
             (JStr "user-1"));
      try reflexivity;
      unfold is_datetime, datetime_max, MAXORDINAL, DAY_US; simpl; lia.
Defined.

(** C4 as stated does not hold: all four fields are there and the identity
    token carries a [uuid], but [expires_in] is the text ["3600"]; the
    exchange ends in a [TypeError], with the tokens stored and no expiry. *)
Lemma exchange_text_expiry_fails :
  (forall k, In k token_keys ->
     dict_get k [("access_token", JStr "access-1");
                 ("id_token", JStr "header.uuid-claim.signature");
                 ("refresh_token", JStr "refresh-1");
                 ("expires_in", JStr "3600")] <> None) /\
  (exists claims uuid,
     jwt_decode Sample.lib (JStr "header.uuid-claim.signature") = Some claims /\
     getitem claims "uuid" = Ok uuid) /\
  fst (run (exchange Sample.lib ["code-1"]) (stubborn_world tokens_with_text_expiry))
  = Raise TypeError /\
  _token (self (snd (run (exchange Sample.lib ["code-1"])
                       (stubborn_world tokens_with_text_expiry))))
  = JStr "access-1" /\
  _token_expiration (self (snd (run (exchange Sample.lib ["code-1"])
                                  (stubborn_world tokens_with_text_expiry))))
  = None.
Proof.
  split; [|split; [|repeat split]].
  - intros k [<-|[<-|[<-|[<-|[]]]]]; discriminate.
  - exists (JObj [("uuid", JStr "user-1")]), (JStr "user-1"). split; reflexivity.
Qed.

(** *** The session fields across the operations *)

Section Outcomes.

Variable lib : Lib.

Lemma outside_kept_refl w : outside_kept w w.
Proof. repeat split. Qed.

Lemma outside_kept_trans w1 w2 w3 :
  outside_kept w1 w2 -> outside_kept w2 w3 -> outside_kept w1 w3.
Proof.
  unfold outside_kept. intros [H1 [H2 H3]] [H4 [H5 H6]].
  repeat split; congruence.
Qed.

Lemma exchange_outcome code w :
  match run (exchange lib code) w with
  | (Ok _, w') => exchanged (self w) (self w') /\ outside_kept w w'
  | (Raise e, w') =>
      outside_kept w w' /\ (storing_error e = false -> self w' = self w)
  end.
Proof.
  rewrite exchange_unfold. cbv zeta.
  assert (Early : forall e,
             outside_kept w (with_log (log w ++ [token_post lib code]) w) /\
             (storing_error e = false ->
              self (with_log (log w ++ [token_post lib code]) w) = self w)).
  { intros e. repeat split. }
  destruct (server w (length (log w))) as [resp|]; [|apply Early].
  destruct (status_code resp =? 200); [|apply Early].
  destruct (json_body resp) as [t|]; [|apply Early].
  destruct (tokens_missing t) as [[|]|e]; try apply Early.
  pose proof (store_tokens_outcome lib t
                (with_log (log w ++ [token_post lib code]) w)) as Ho.
  destruct (run (store_tokens lib t) _) as [[u|e] w'].
  - destruct Ho as [a [r [i [x [_ ->]]]]]. split; [|repeat split].
    now exists a, r, i, x.
  - destruct Ho as [Ht [_ Hk]]. split; [exact Hk |].
    intros Hy. congruence.
Qed.

(** A login either goes through, leaving the fields of the exchange, or
    raises; unless what it raises is a [storing_error], the session fields
    are as before. *)
Lemma update_token_outcome w :
  match run (_update_token lib) w with
  | (Ok _, w') => exchanged (self w) (self w') /\ outside_kept w w'
  | (Raise e, w') =>
      outside_kept w w' /\ (storing_error e = false -> self w' = self w)
  end.
Proof.
  unfold _update_token. rewrite run_bind.
  destruct (challenge_rounds_frame lib 10 (JObj []) w) as [sent1 [E1 _]].
  destruct (run (challenge_rounds lib 10 (JObj [])) w) as [[data|e] w1];
    simpl in E1; subst w1; [|repeat split].
  rewrite run_bind.
  destruct (authorize_frame lib data (with_log (log w ++ sent1) w))
    as [sent2 E2].
  destruct (run (authorize lib data) _) as [[code|e] w2];
    simpl in E2; subst w2; [|repeat split].
  exact (exchange_outcome code _).
Qed.

Lemma is_token_valid_frame w :
  exists n, snd (run (_is_token_valid lib) w) = with_ticks n w.
Proof.
  rewrite is_token_valid_spec.
  destruct (truthy lib (_token (self w))).
  - exists (ticks w). now destruct w.
  - destruct (_token_expiration (self w)).
    + now exists (S (ticks w)).
    + exists (ticks w). now destruct w.
Qed.

Lemma ensure_token_outcome w :
  match run (ensure_token lib) w with
  | (Ok _, w') =>
      (self w' = self w \/ exchanged (self w) (self w')) /\ outside_kept w w'
  | (Raise e, w') =>
      outside_kept w w' /\ (storing_error e = false -> self w' = self w)
  end.
Proof.
  unfold ensure_token. rewrite run_bind.
  destruct (is_token_valid_frame w) as [n E].
  destruct (run (_is_token_valid lib) w) as [[[|]|e] w1]; simpl in E; subst w1.
  - simpl. split; [now left | repeat split].
  - simpl negb. cbv iota.
    pose proof (update_token_outcome (with_ticks n w)) as Ho.
    destruct (run (_update_token lib) (with_ticks n w)) as [[u|e] w'].
    + destruct Ho as [Hx Hk]. split; [now right | exact Hk].
    + exact Ho.
  - repeat split.
Qed.

Lemma merge_headers_frame vin headers w :
  exists h d,
    run (merge_headers lib vin headers) w
    = (Ok h, with_heap (<[h := d]> (heap w)) w).
Proof.
  unfold merge_headers.
  destruct headers as [l|]; destruct vin as [v|]; simpl; eauto.
  - eexists _, _. f_equal. unfold with_heap. simpl. f_equal.
    apply insert_insert_eq.
  - eexists _, _. f_equal. unfold with_heap. simpl. f_equal.
    rewrite !insert_insert_eq. reflexivity.
  - eexists _, _. f_equal. unfold with_heap. simpl. f_equal.
    apply insert_insert_eq.
Qed.

Lemma dispatch_outcome method endpoint h body params w :
  let w1 := with_log
              (log w ++ [api_request lib (self w) method endpoint
                           (deref (heap w) h) body params]) w in
  run (dispatch lib method endpoint h body params) w =
  match server w (length (log w)) with
  | Failed => (Raise HttpxError, w1)
  | Answer resp =>
      if (status_code resp =? 200) || (status_code resp =? 202)
      then (Ok resp, w1)
      else (Raise (ToyotaApiError
                     ("Request Failed.  " +:+ str_of_int (status_code resp)
                      +:+ ", " +:+ text resp +:+ ".")), w1)
  end.
Proof.
  unfold dispatch. simpl.
  destruct (server w (length (log w))) as [resp|]; auto.
  destruct ((status_code resp =? 200) || (status_code resp =? 202)); auto.
Qed.


End Outcomes.





(** *** The API call *)

(** With an allowed method, the call is the three steps in a row. *)
Lemma request_raw_allowed lib method endpoint vin body params headers :
  In method allowed_methods ->
  request_raw lib method endpoint vin body params headers =
  (do! ensure_token lib in
   let! h := merge_headers lib vin headers in
   dispatch lib method endpoint h body params).
Proof.
  intros Hin.
  assert (E : existsb (String.eqb method) allowed_methods = true).
  { apply existsb_exists. exists method. split; [exact Hin |].
    apply String.eqb_refl. }
  unfold request_raw. now rewrite E.
Qed.

(** C5: once [request_raw] has ensured the session and built the headers,
    it sends the API request once.  A reply with status 200 or 202 is
    returned as it is; any other status raises [ToyotaApiError] whose
    message is made of that status and the reply's text.  No second request
    follows. *)
Theorem request_raw_status lib method endpoint vin body params headers w h w1 resp :
  In method allowed_methods ->
  run (do! ensure_token lib in merge_headers lib vin headers) w = (Ok h, w1) ->
  server w1 (length (log w1)) = Answer resp ->
  run (request_raw lib method endpoint vin body params headers) w =
  (if (status_code resp =? 200) || (status_code resp =? 202)
   then Ok resp
   else Raise (ToyotaApiError
                 ("Request Failed.  " +:+ str_of_int (status_code resp)
                  +:+ ", " +:+ text resp +:+ ".")),
   with_log
     (log w1 ++ [api_request lib (self w1) method endpoint
                   (deref (heap w1) h) body params])
     w1).
Proof.
  intros Hin Hpre Hr.
  rewrite (request_raw_allowed _ _ _ _ _ _ _ Hin).
  rewrite run_bind in Hpre. rewrite run_bind.
  destruct (run (ensure_token lib) w) as [[u|e] w0]; [|discriminate Hpre].
  rewrite run_bind, Hpre. rewrite dispatch_outcome, Hr. cbv zeta.
  destruct ((status_code resp =? 200) || (status_code resp =? 202));
    reflexivity.
Qed.

Lemma request_raw_status_witness :
  fst (run (request_raw Sample.lib "GET" "/v1/x" None None None None)
         login_for_an_hour)
  = Raise (ToyotaApiError "Request Failed.  500, boom.").
Proof.
  exact (f_equal fst
           (request_raw_status Sample.lib "GET" "/v1/x" None None None None
              login_for_an_hour 1%positive
              (snd (run (do! ensure_token Sample.lib in
                         merge_headers Sample.lib None None) login_for_an_hour))
              {| status_code := 500; text := "boom"; json_body := None;
                 location := None |}
              (or_introl eq_refl) eq_refl eq_refl)).
Defined.

(** *** The headers of the API call *)

Lemma merge_headers_some lib vin l w :
  run (merge_headers lib vin (Some l)) w =
  (Ok l, with_heap
           (<[l := merged_headers lib (self w) vin (deref (heap w) l)]>
              (heap w)) w).
Proof.
  unfold merge_headers, merged_headers.
  destruct vin as [v|]; simpl; [|reflexivity].
  f_equal. unfold with_heap. simpl. f_equal.
  unfold deref at 1. rewrite lookup_insert_eq. apply insert_insert_eq.
Qed.

Lemma session_headers_win lib c vin d k v :
  In (k, v) (session_headers lib c) ->
  dict_get k (merged_headers lib c vin d) = Some v.
Proof.
  intros Hin.
  assert (H1 : dict_get k (dict_update d (session_headers lib c)) = Some v /\
               k <> "vin").
  { rewrite dict_get_update. simpl in Hin.
    destruct Hin as [H|[H|[H|[H|[H|[H|[H|[]]]]]]]]; injection H as <- <-;
      (split; [reflexivity | discriminate]). }
  destruct H1 as [H1 Hk]. unfold merged_headers.
  destruct vin as [x|]; [|exact H1].
  rewrite dict_get_update. simpl.
  destruct (String.eqb_spec k "vin"); [contradiction | exact H1].
Qed.

Lemma vin_header_wins lib c x d :
  dict_get "vin" (merged_headers lib c (Some x) d) = Some (JStr x).
Proof. unfold merged_headers. rewrite dict_get_update. reflexivity. Qed.

Lemma other_headers_stay lib c vin d k :
  dict_get k (session_headers lib c) = None ->
  (vin <> None -> k <> "vin") ->
  dict_get k (merged_headers lib c vin d) = dict_get k d.
Proof.
  intros Hs Hv.
  assert (H1 : dict_get k (dict_update d (session_headers lib c)) = dict_get k d).
  { rewrite dict_get_update. simpl in Hs |- *.
    repeat match type of Hs with
           | (if ?b then _ else _) = None =>
               destruct b; [discriminate Hs |]
           end.
    reflexivity. }
  unfold merged_headers. destruct vin as [x|]; [|exact H1].
  rewrite dict_get_update. simpl.
  destruct (String.eqb_spec k "vin") as [->|]; [|exact H1].
  exfalso. now apply Hv.
Qed.

(** C10: when [request_raw] is called with an allowed method and a headers
    dictionary of the caller, and the session step goes through, the
    dictionary object is updated where it is: after the call the caller's
    object holds the merged headers, no other object is touched or created,
    and the API request is sent with that same dictionary.  In it every
    header the controller sets ([x-api-key], [x-guid], [guid],
    [authorization], [x-channel], [x-brand], [user-agent], and [vin] when
    one is given) has the controller's value, whatever the caller had put
    under that name; the caller's other entries are as they were. *)
Theorem request_raw_merges_headers lib method endpoint vin body params l d w w1 :
  In method allowed_methods ->
  heap w !! l = Some d ->
  run (ensure_token lib) w = (Ok tt, w1) ->
  let merged := merged_headers lib (self w1) vin d in
  let w' := snd (run (request_raw lib method endpoint vin body params (Some l)) w) in
  heap w' = <[l := merged]> (heap w) /\
  log w' = (log w1 ++ [api_request lib (self w1) method endpoint merged body params])%list /\
  (forall k v, In (k, v) (session_headers lib (self w1)) ->
               dict_get k merged = Some v) /\
  (forall x, vin = Some x -> dict_get "vin" merged = Some (JStr x)) /\
  (forall k, dict_get k (session_headers lib (self w1)) = None ->
             (vin <> None -> k <> "vin") ->
             dict_get k merged = dict_get k d).
Proof.
  intros Hin Hd Hens merged w'.
  assert (Hheap : heap w1 = heap w).
  { pose proof (ensure_token_outcome lib w) as Ho. rewrite Hens in Ho.
    destruct Ho as [_ [Hh _]]. exact Hh. }
  assert (Hw' : heap w' = <[l := merged]> (heap w) /\
                log w' = (log w1 ++ [api_request lib (self w1) method endpoint
                                       merged body params])%list).
  { subst w'. rewrite (request_raw_allowed _ _ _ _ _ _ _ Hin).
    rewrite run_bind, Hens, run_bind, merge_headers_some, dispatch_outcome.
    cbv zeta. simpl self. simpl heap. simpl log.
    unfold deref. rewrite lookup_insert_eq, Hheap, Hd. fold merged.
    destruct (server _ _) as [resp|]; [|split; reflexivity].
    destruct ((status_code resp =? 200) || (status_code resp =? 202));
      split; reflexivity. }
  destruct Hw' as [Hh Hl].
  split; [exact Hh | split; [exact Hl |]].
  split; [|split].
  - intros k v Hkv. now apply session_headers_win.
  - intros x ->. apply vin_header_wins.
  - intros k Hs Hv. now apply other_headers_stay.
Qed.

Lemma request_raw_merges_headers_witness :
  let w' := snd (run (request_raw Sample.lib "GET" "/v1/x" (Some "VIN-1") None None
                        (Some caller_loc)) login_with_headers) in
  heap w' !! caller_loc =
  Some [("accept", JStr "application/json");
        ("authorization", JStr "Bearer access-1");
        ("vin", JStr "VIN-1");
        ("x-api-key", JStr "tTZipv6liF74PwMfk9Ed68AQ0bISswwf3iHQdqcF");
        ("x-guid", JStr "user-1");
        ("guid", JStr "user-1");
        ("x-channel", JStr "ONEAPP");
        ("x-brand", JStr "T");
        ("user-agent", JStr "okhttp/4.10.0")] /\
  map (fun rq => Some (rq_headers rq)) (drop 4 (log w')) = [heap w' !! caller_loc].
Proof.
  pose proof (request_raw_merges_headers Sample.lib "GET" "/v1/x" (Some "VIN-1")
                None None caller_loc caller_headers login_with_headers
                (snd (run (ensure_token Sample.lib) login_with_headers))
                (or_introl eq_refl) eq_refl eq_refl) as H.
  cbv zeta in H. destruct H as [Hh [Hl _]].
  cbv zeta. rewrite Hh, Hl. rewrite lookup_insert_eq.
  split; reflexivity.
Defined.

(** ** Further properties of the controller *)

(** *** What every call keeps *)

(** The log only grows, and the oracles are never replaced. *)
Lemma run_extends {A} (m : Async A) : forall w,
  (exists sent, sent_by m w sent) /\
  server (snd (run m w)) = server w /\
  wall (snd (run m w)) = wall w.
Proof.
  unfold sent_by.
  assert (Step : forall (c : Async A) w w1,
             log w1 = log w -> server w1 = server w -> wall w1 = wall w ->
             ((exists sent, log (snd (run c w1)) = (log w1 ++ sent)%list) /\
              server (snd (run c w1)) = server w1 /\
              wall (snd (run c w1)) = wall w1) ->
             (exists sent, log (snd (run c w1)) = (log w ++ sent)%list) /\
             server (snd (run c w1)) = server w /\
             wall (snd (run c w1)) = wall w).
  { intros c w w1 Hl Hs Hw [[sent H1] [H2 H3]].
    split; [exists sent | split]; congruence. }
  induction m as [a|e|c IH|f c IH|c IH|rq c IH|c IH|l c IH|l upd c IH];
    intros w; simpl.
  - split; [exists []; now rewrite app_nil_r | now split].
  - split; [exists []; now rewrite app_nil_r | now split].
  - apply IH.
  - now apply Step.
  - now apply Step.
  - destruct (server w (length (log w))) as [resp|]; simpl.
    + destruct (IH resp (with_log (log w ++ [rq]) w)) as [[sent Hs] Ho].
      split; [|exact Ho]. exists (rq :: sent). rewrite Hs. simpl.
      now rewrite <- app_assoc.
    + split; [now exists [rq] | now split].
  - now apply Step.
  - apply IH.
  - now apply Step.
Qed.

(** *** How many requests a call can send *)

Lemma sends_at_most_bind {A B} (m : Async A) (k : A -> Async B) n1 n2 :
  sends_at_most m n1 ->
  (forall a, sends_at_most (k a) n2) ->
  sends_at_most (bind m k) (n1 + n2).
Proof.
  unfold sends_at_most, sent_by. intros H1 H2 w. rewrite run_bind.
  destruct (H1 w) as [s1 [E1 L1]].
  destruct (run m w) as [[a|e] w1]; simpl in E1.
  - destruct (H2 a w1) as [s2 [E2 L2]]. exists (s1 ++ s2)%list.
    rewrite E2, E1, length_app. split; [now rewrite app_assoc | lia].
  - exists s1. split; [exact E1 | lia].
Qed.

Lemma sends_at_most_weaken {A} (m : Async A) n1 n2 :
  (n1 <= n2)%nat -> sends_at_most m n1 -> sends_at_most m n2.
Proof.
  intros Hle H w. destruct (H w) as [s [E L]]. exists s. split; [exact E | lia].
Qed.

Lemma sends_nothing_lift {A} (r : result A) : sends_at_most (lift r) 0.
Proof.
  intros w. exists []. unfold sent_by. rewrite run_lift. simpl.
  now rewrite app_nil_r.
Qed.

Lemma sends_none {A} (m : Async A) :
  (forall w, log (snd (run m w)) = log w) -> sends_at_most m 0.
Proof.
  intros H w. exists []. unfold sent_by. rewrite H. now rewrite app_nil_r.
Qed.

Lemma sends_one rq : sends_at_most (send rq) 1.
Proof.
  intros w. exists [rq]. unfold sent_by. simpl.
  destruct (server w (length (log w))); auto.
Qed.

Section RequestBound.

Variable lib : Lib.

Lemma challenge_rounds_sends n data : sends_at_most (challenge_rounds lib n data) n.
Proof.
  intros w. destruct (challenge_rounds_frame lib n data w) as [sent [E [L _]]].
  exists sent. unfold sent_by. rewrite E. now split.
Qed.

Lemma authorize_sends data : sends_at_most (authorize lib data) 1.
Proof.
  unfold authorize.
  apply (sends_at_most_bind _ _ 0 1); [apply sends_nothing_lift |].
  intros found. destruct (negb found).
  - apply (sends_at_most_weaken _ 0); [lia |]. now apply sends_none.
  - apply (sends_at_most_bind _ _ 0 1); [apply sends_nothing_lift |].
    intros tid.
    apply (sends_at_most_bind _ _ 1 0); [apply sends_one |].
    intros resp. destruct (negb _).
    + now apply sends_none.
    + apply sends_nothing_lift.
Qed.

Lemma exchange_sends code : sends_at_most (exchange lib code) 1.
Proof.
  intros w. exists [token_post lib code]. split; [|simpl; lia].
  unfold sent_by. rewrite exchange_unfold. cbv zeta.
  destruct (server w (length (log w))) as [resp|]; auto.
  destruct (status_code resp =? 200); auto.
  destruct (json_body resp) as [t|]; auto.
  destruct (tokens_missing t) as [[|]|]; auto.
  pose proof (store_tokens_outcome lib t
                (with_log (log w ++ [token_post lib code]) w)) as Ho.
  destruct (run (store_tokens lib t) _) as [[u|e] w'].
  - destruct Ho as [a [r [i [x [_ ->]]]]]. simpl. now rewrite app_nil_r.
  - destruct Ho as [_ [Hl _]]. simpl. now rewrite Hl.
Qed.

Lemma update_token_sends : sends_at_most (_update_token lib) 12.
Proof.
  unfold _update_token.
  apply (sends_at_most_bind _ _ 10 2); [apply challenge_rounds_sends |].
  intros data.
  apply (sends_at_most_bind _ _ 1 1); [apply authorize_sends |].
  intros code. apply exchange_sends.
Qed.

Lemma ensure_token_sends : sends_at_most (ensure_token lib) 12.
Proof.
  unfold ensure_token.
  apply (sends_at_most_bind _ _ 0 12).
  - apply sends_none. intros w.
    destruct (is_token_valid_frame lib w) as [n ->]. reflexivity.
  - intros valid. destruct (negb valid); [apply update_token_sends |].
    apply (sends_at_most_weaken _ 0); [lia |]. now apply sends_none.
Qed.

Lemma request_raw_sends method endpoint vin body params headers :
  sends_at_most (request_raw lib method endpoint vin body params headers) 13.
Proof.
  unfold request_raw. destruct (negb _).
  - apply (sends_at_most_weaken _ 0); [lia |]. now apply sends_none.
  - apply (sends_at_most_bind _ _ 12 1); [apply ensure_token_sends |].
    intros _.
    apply (sends_at_most_bind _ _ 0 1).
    + apply sends_none. intros w.
      destruct (merge_headers_frame lib vin headers w) as [h [d ->]].
      reflexivity.
    + intros h w.
      exists [api_request lib (self w) method endpoint (deref (heap w) h)
                body params].
      unfold sent_by. rewrite dispatch_outcome. cbv zeta.
      split; [|simpl; lia].
      destruct (server w (length (log w))) as [resp|]; [|reflexivity].
      destruct (_ || _); reflexivity.
Qed.

End RequestBound.

(** X1: one call never sends more than a fixed number of requests: a login
    at most 12 (ten challenge rounds, the authorization, the token
    exchange), [request_raw] and [request_json] at most 13. *)
Theorem request_bound lib :
  sends_at_most (login lib) 12 /\
  (forall method endpoint vin body params headers,
      sends_at_most (request_raw lib method endpoint vin body params headers) 13) /\
  (forall method endpoint vin body params headers,
      sends_at_most (request_json lib method endpoint vin body params headers) 13).
Proof.
  split; [apply update_token_sends | split].
  - apply request_raw_sends.
  - intros method endpoint vin body params headers. unfold request_json.
    apply (sends_at_most_bind _ _ 13 0); [apply request_raw_sends |].
    intros resp. apply sends_nothing_lift.
Qed.

(** *** A login from end to end *)

Section Login.

Variable lib : Lib.

(** Where the loop stands after the replies [ds]: the next reply decides. *)
Lemma challenge_round_at w ds :
  (length ds < 10)%nat ->
  (forall i x, ds !! i = Some x ->
     pending (server w (length (log w) + i)%nat) x /\
     fillable (_username (self w)) (_password (self w)) x) ->
  run (challenge_rounds lib 10 (JObj [])) w =
  let w2 := with_log (log w ++ challenge_posts lib w ds) w in
  match reply_at w (length ds) with
  | Failed => (Raise HttpxError, w2)
  | Answer resp =>
      if status_code resp =? 200 then
        match json_body resp with
        | None => (Raise JSONDecodeError, w2)
        | Some d =>
            match contains "tokenId" d with
            | Raise e => (Raise e, w2)
            | Ok true => (Ok d, w2)
            | Ok false => run (challenge_rounds lib (9 - length ds) d) w2
            end
        end
      else
        (Raise (ToyotaLoginError
                  ("Authentication Failed. " +:+ str_of_int (status_code resp)
                   +:+ ", " +:+ text resp +:+ ".")), w2)
  end.
Proof.
  intros Hlen Hall.
  set (u := _username (self w)). set (p := _password (self w)).
  rewrite (challenge_rounds_prefix lib ds 10 (JObj []) w); [| lia | |].
  - destruct (10 - length ds)%nat as [|m] eqn:Em; [lia |].
    replace (9 - length ds)%nat with m by lia.
    rewrite challenge_rounds_S. simpl self. simpl log.
    assert (Hf : fillable u p (List.last ds (JObj []))).
    { destruct ds as [|d0 ds0] using rev_ind.
      - eexists. apply fill_callbacks_empty.
      - rewrite last_last. apply (Hall (length ds0) d0).
        rewrite lookup_app_r by lia. now rewrite Nat.sub_diag. }
    destruct Hf as [f Hf]. fold u p. rewrite Hf. cbv zeta.
    simpl server. rewrite length_app, length_map, length_take.
    simpl length.
    replace (length ds `min` S (length ds))%nat with (length ds) by lia.
    assert (Hw : with_log
                   ((log w ++
                     map (fun d => authenticate_post lib (filled u p d))
                       (take (length ds) (JObj [] :: ds))) ++
                    [authenticate_post lib f])
                   (with_log
                      (log w ++
                       map (fun d => authenticate_post lib (filled u p d))
                         (take (length ds) (JObj [] :: ds))) w)
                 = with_log (log w ++ challenge_posts lib w ds) w).
    { unfold with_log. simpl. f_equal. rewrite <- app_assoc. f_equal.
      unfold challenge_posts. fold u p.
      rewrite <- (take_snoc_last ds (JObj [])) at 2.
      rewrite map_app. f_equal. simpl. unfold filled. now rewrite Hf. }
    rewrite Hw. unfold reply_at. reflexivity.
  - intros i x Hi. now apply Hall.
  - intros i x Hi Hlt. destruct i as [|i].
    + injection Hi as <-. eexists. apply fill_callbacks_empty.
    + now apply (Hall i x).
Qed.

Lemma challenge_passed w ds d :
  challenge_passes w ds d ->
  run (challenge_rounds lib 10 (JObj [])) w =
  (Ok d, with_log (log w ++ challenge_posts lib w ds) w).
Proof.
  intros [Hlen [Hall [resp [Hr [Hs [Hj Hc]]]]]].
  rewrite (challenge_round_at w ds Hlen Hall). cbv zeta.
  unfold reply_at. now rewrite Hr, Hs, Hj, Hc.
Qed.

Lemma length_challenge_posts w ds :
  length (challenge_posts lib w ds) = S (length ds).
Proof. unfold challenge_posts. now rewrite length_map. Qed.

(** After the challenge: the reply to the authorization request decides. *)
Lemma login_after_challenge w ds d token_id :
  challenge_passes w ds d ->
  getitem d "tokenId" = Ok token_id ->
  run (login lib) w =
  let w3 := with_log (log w ++ challenge_posts lib w ds
                      ++ [authorize_get lib token_id]) w in
  match reply_at w (S (length ds)) with
  | Failed => (Raise HttpxError, w3)
  | Answer resp =>
      if status_code resp =? 302 then
        match location_code lib resp with
        | Ok code => run (exchange lib code) w3
        | Raise e => (Raise e, w3)
        end
      else (Raise (ToyotaLoginError
                     ("Authorization failed. " +:+ str_of_int (status_code resp)
                      +:+ ", " +:+ text resp +:+ ".")), w3)
  end.
Proof.
  intros Hpass Hg.
  assert (Hc : contains "tokenId" d = Ok true).
  { destruct Hpass as [_ [_ [resp [_ [_ [_ Hc]]]]]]. exact Hc. }
  unfold login, _update_token. rewrite run_bind.
  rewrite (challenge_passed w ds d Hpass). rewrite run_bind.
  rewrite (authorize_granted lib d token_id _ Hc Hg). cbv zeta.
  simpl server. simpl log. rewrite length_app, length_challenge_posts.
  unfold reply_at.
  assert (Hw : with_log ((log w ++ challenge_posts lib w ds)
                         ++ [authorize_get lib token_id])
                 (with_log (log w ++ challenge_posts lib w ds) w)
               = with_log (log w ++ challenge_posts lib w ds
                           ++ [authorize_get lib token_id]) w).
  { unfold with_log. simpl. now rewrite <- app_assoc. }
  rewrite Hw.
  destruct (server w (length (log w) + S (length ds))) as [resp|]; auto.
  destruct (status_code resp =? 302); auto.
Qed.

Lemma location_code_redirect r code resp :
  redirects_with lib r code -> r = Answer resp ->
  status_code resp = 302 /\ location_code lib resp = Ok code.
Proof.
  intros [resp' [url [q [Hr [Hs [Hl [Hq Hc]]]]]]] E.
  rewrite E in Hr. injection Hr as <-. split; [exact Hs |].
  unfold location_code. now rewrite Hl, Hq, Hc.
Qed.

(** After the redirect: the exchange runs with the code it carried. *)
Lemma login_after_redirect w ds d token_id code :
  challenge_passes w ds d ->
  getitem d "tokenId" = Ok token_id ->
  redirects_with lib (reply_at w (S (length ds))) code ->
  run (login lib) w =
  run (exchange lib code)
    (with_log (log w ++ challenge_posts lib w ds
               ++ [authorize_get lib token_id]) w).
Proof.
  intros Hpass Hg Hred.
  rewrite (login_after_challenge w ds d token_id Hpass Hg). cbv zeta.
  destruct Hred as [resp [url [q [Hr [Hs [Hl [Hq Hc]]]]]]].
  rewrite Hr, Hs. simpl. unfold location_code. now rewrite Hl, Hq, Hc.
Qed.

(** The exchange, where it stands in a login. *)
Lemma exchange_at w ds token_id code :
  run (exchange lib code)
    (with_log (log w ++ challenge_posts lib w ds
               ++ [authorize_get lib token_id]) w) =
  let w4 := with_log (log w ++ challenge_posts lib w ds
                      ++ [authorize_get lib token_id; token_post lib code]) w in
  match reply_at w (S (S (length ds))) with
  | Failed => (Raise HttpxError, w4)
  | Answer resp =>
      if status_code resp =? 200 then
        match json_body resp with
        | None => (Raise JSONDecodeError, w4)
        | Some t =>
            match tokens_missing t with
            | Raise e => (Raise e, w4)
            | Ok true =>
                (Raise (ToyotaLoginError
                          ("Token retrieval failed. Missing Tokens. "
                           +:+ str_of_int (status_code resp) +:+ ", "
                           +:+ text resp +:+ ".")), w4)
            | Ok false => run (store_tokens lib t) w4
            end
        end
      else
        (Raise (ToyotaLoginError
                  ("Token retrieval failed. " +:+ str_of_int (status_code resp)
                   +:+ ", " +:+ text resp +:+ ".")), w4)
  end.
Proof.
  rewrite exchange_unfold.
  set (L := (log w ++ challenge_posts lib w ds
             ++ [authorize_get lib token_id])%list).
  assert (HL : length L = (length (log w) + S (S (length ds)))%nat).
  { unfold L. rewrite !length_app, length_challenge_posts. simpl. lia. }
  assert (HW : with_log (L ++ [token_post lib code]) (with_log L w)
               = with_log (log w ++ challenge_posts lib w ds
                           ++ [authorize_get lib token_id; token_post lib code]) w).
  { unfold with_log. cbn [self heap log ticks server wall]. f_equal.
    unfold L. rewrite <- !app_assoc. reflexivity. }
  cbv zeta.
  change (log (with_log L w)) with L.
  change (server (with_log L w)) with (server w).
  rewrite HW, HL. reflexivity.
Qed.

End Login.

(** X2: a challenge reply with a status other than 200 ends the login at
    once with [ToyotaLoginError("Authentication Failed. <status>,
    <text>.")]: the challenge states posted so far are the only requests,
    and the session is as before. *)
Theorem login_challenge_refused lib w ds resp :
  (length ds < 10)%nat ->
  (forall i x, ds !! i = Some x ->
     pending (server w (length (log w) + i)%nat) x /\
     fillable (_username (self w)) (_password (self w)) x) ->
  reply_at w (length ds) = Answer resp ->
  status_code resp <> 200 ->
  run (login lib) w =
  (Raise (ToyotaLoginError
            ("Authentication Failed. " +:+ str_of_int (status_code resp)
             +:+ ", " +:+ text resp +:+ ".")),
   with_log (log w ++ challenge_posts lib w ds) w).
Proof.
  intros Hlen Hall Hr Hs.
  unfold login, _update_token. rewrite run_bind.
  rewrite (challenge_round_at lib w ds Hlen Hall). cbv zeta. rewrite Hr.
  destruct (Z.eqb_spec (status_code resp) 200); [contradiction | reflexivity].
Qed.

(** X3: once the challenge has given a token identifier, a reply to the
    authorization request with a status other than 302 ends the login with
    [ToyotaLoginError("Authorization failed. <status>, <text>.")]; the
    request sent carried the identifier as cookie, no token request
    follows, and the session is as before. *)
Theorem login_authorization_refused lib w ds d token_id resp :
  challenge_passes w ds d ->
  getitem d "tokenId" = Ok token_id ->
  reply_at w (S (length ds)) = Answer resp ->
  status_code resp <> 302 ->
  run (login lib) w =
  (Raise (ToyotaLoginError
            ("Authorization failed. " +:+ str_of_int (status_code resp)
             +:+ ", " +:+ text resp +:+ ".")),
   with_log (log w ++ challenge_posts lib w ds
             ++ [authorize_get lib token_id]) w) /\
  rq_headers (authorize_get lib token_id)
  = [("cookie", JStr ("iPlanetDirectoryPro=" +:+ py_str lib token_id))].
Proof.
  intros Hpass Hg Hr Hs. split; [|reflexivity].
  rewrite (login_after_challenge lib w ds d token_id Hpass Hg). cbv zeta.
  rewrite Hr.
  destruct (Z.eqb_spec (status_code resp) 302); [contradiction | reflexivity].
Qed.

(** X4: after the redirect, a reply of the token endpoint with a status
    other than 200 ends the login with [ToyotaLoginError("Token retrieval
    failed. <status>, <text>.")]; the token request carried the code of the
    redirect, and the session is as before. *)
Theorem login_token_refused lib w ds d token_id code resp :
  challenge_passes w ds d ->
  getitem d "tokenId" = Ok token_id ->
  redirects_with lib (reply_at w (S (length ds))) code ->
  reply_at w (S (S (length ds))) = Answer resp ->
  status_code resp <> 200 ->
  run (login lib) w =
  (Raise (ToyotaLoginError
            ("Token retrieval failed. " +:+ str_of_int (status_code resp)
             +:+ ", " +:+ text resp +:+ ".")),
   with_log (log w ++ challenge_posts lib w ds
             ++ [authorize_get lib token_id; token_post lib code]) w).
Proof.
  intros Hpass Hg Hred Hr Hs.
  rewrite (login_after_redirect lib w ds d token_id code Hpass Hg Hred).
  rewrite exchange_at, Hr.
  destruct (Z.eqb_spec (status_code resp) 200); [contradiction | reflexivity].
Qed.

(** X5: a login that goes through.  The challenge gives a token
    identifier, the authorization reply is a 302 with a code, the token
    reply has status 200 and the four fields, the identity token decodes
    to a [uuid], and [expires_in] is an integer giving a representable
    expiry.  Then [login] returns; it has sent the challenge states, one
    authorization request and one token request with that code, and the
    controller holds the access token, the refresh token, the uuid and
    the expiry. *)
Theorem login_succeeds lib w ds d token_id code resp t
    access id_token refresh n claims uuid :
  challenge_passes w ds d ->
  getitem d "tokenId" = Ok token_id ->
  redirects_with lib (reply_at w (S (length ds))) code ->
  reply_at w (S (S (length ds))) = Answer resp ->
  status_code resp = 200 ->
  json_body resp = Some (JObj t) ->
  dict_get "access_token" t = Some access ->
  dict_get "id_token" t = Some id_token ->
  dict_get "refresh_token" t = Some refresh ->
  dict_get "expires_in" t = Some (JInt n) ->
  jwt_decode lib id_token = Some claims ->
  getitem claims "uuid" = Ok uuid ->
  is_datetime (wall w (ticks w)) ->
  is_datetime (wall w (ticks w) + n * 1000000) ->
  run (login lib) w =
  (Ok tt,
   after_exchange w
     (challenge_posts lib w ds
      ++ [authorize_get lib token_id; token_post lib code])
     (logged_in (self w) access refresh uuid (wall w (ticks w) + n * 1000000))).
Proof.
  intros Hpass Hg Hred Hr Hs Hj Ha Hi Hf He Hd Hu Ht Hx.
  rewrite (login_after_redirect lib w ds d token_id code Hpass Hg Hred).
  rewrite exchange_at, Hr, Hs, Hj. simpl Z.eqb. cbv iota.
  assert (Hm : tokens_missing (JObj t) = Ok false).
  { destruct (tokens_missing_obj t) as [[|] Hb]; [|exact Hb].
    apply tokens_missing_iff in Hb.
    destruct Hb as [k [[<-|[<-|[<-|[<-|[]]]]] Hk]]; congruence. }
  rewrite Hm.
  rewrite (store_tokens_int lib t access id_token refresh n claims uuid);
    try assumption.
  unfold after_exchange, with_log. cbn [self heap log ticks server wall].
  now rewrite app_nil_r.
Qed.

(** The sample exchanges meet the conditions above. *)
Ltac sample_rounds :=
  let i := fresh "i" in
  let x := fresh "x" in
  let H := fresh "H" in
  intros i x H;
  repeat (destruct i as [|i]; [injection H as <-; split;
                                 [eexists; repeat split; reflexivity
                                 | eexists; reflexivity] |]);
  discriminate H.

Ltac sample_challenge :=
  split; [simpl; lia | split; [sample_rounds | eexists; repeat split; reflexivity]].

Lemma login_challenge_refused_witness :
  run (login Sample.lib) refused_after_prompts =
  (Raise (ToyotaLoginError "Authentication Failed. 500, boom."),
   with_log (challenge_posts Sample.lib refused_after_prompts [Sample.prompts])
     refused_after_prompts).
Proof.
  apply (login_challenge_refused Sample.lib refused_after_prompts [Sample.prompts]
           {| status_code := 500; text := "boom"; json_body := None;
              location := None |}).
  - simpl. lia.
  - sample_rounds.
  - reflexivity.
  - discriminate.
Defined.

Lemma login_authorization_refused_witness :
  run (login Sample.lib) refused_authorization =
  (Raise (ToyotaLoginError "Authorization failed. 403, forbidden."),
   with_log (challenge_posts Sample.lib refused_authorization [Sample.prompts]
             ++ [authorize_get Sample.lib (JStr "tid-1")])
     refused_authorization) /\
  rq_headers (authorize_get Sample.lib (JStr "tid-1"))
  = [("cookie", JStr "iPlanetDirectoryPro=tid-1")].
Proof.
  apply (login_authorization_refused Sample.lib refused_authorization
           [Sample.prompts] granted (JStr "tid-1")
           {| status_code := 403; text := "forbidden"; json_body := None;
              location := None |}).
  - sample_challenge.
  - reflexivity.
  - reflexivity.
  - discriminate.
Defined.

Lemma login_token_refused_witness :
  run (login Sample.lib) refused_tokens =
  (Raise (ToyotaLoginError "Token retrieval failed. 503, later."),
   with_log (challenge_posts Sample.lib refused_tokens [Sample.prompts]
             ++ [authorize_get Sample.lib (JStr "tid-1");
                 token_post Sample.lib ["code-1"]])
     refused_tokens).
Proof.
  apply (login_token_refused Sample.lib refused_tokens
           [Sample.prompts] granted (JStr "tid-1") ["code-1"]
           {| status_code := 503; text := "later"; json_body := None;
              location := None |}).
  - sample_challenge.
  - reflexivity.
  - eexists _, _, _. repeat split; reflexivity.
  - reflexivity.
  - discriminate.
Defined.

Lemma login_succeeds_witness :
  run (login Sample.lib) login_for_an_hour =
  (Ok tt,
   after_exchange login_for_an_hour
     (challenge_posts Sample.lib login_for_an_hour [Sample.prompts]
      ++ [authorize_get Sample.lib (JStr "tid-1");
          token_post Sample.lib ["code-1"]])
     (logged_in Sample.fresh_controller (JStr "access-1") (JStr "refresh-1")
        (JStr "user-1") (1000 + 3600 * 1000000))).
Proof.
  apply (login_succeeds Sample.lib login_for_an_hour
           [Sample.prompts] granted (JStr "tid-1") ["code-1"]
           {| status_code := 200; text := "tokens";
              json_body := Some (Sample.tokens "header.uuid-claim.signature" (JInt 3600));
              location := None |}
           [("access_token", JStr "access-1");
            ("id_token", JStr "header.uuid-claim.signature");
            ("refresh_token", JStr "refresh-1");
            ("expires_in", JInt 3600)]
           (JStr "access-1") (JStr "header.uuid-claim.signature")
           (JStr "refresh-1") 3600 (JObj [("uuid", JStr "user-1")]) (JStr "user-1"));
    try reflexivity.
  - sample_challenge.
  - eexists _, _, _. repeat split; reflexivity.
  - unfold is_datetime, datetime_max, MAXORDINAL, DAY_US. simpl. lia.
  - unfold is_datetime, datetime_max, MAXORDINAL, DAY_US. simpl. lia.
Defined.

(** *** Every call of a logged-in controller logs in again *)

Lemma sent_by_bind {A B} (m : Async A) (k : A -> Async B) w s1 :
  sent_by m w s1 -> exists s2, sent_by (bind m k) w (s1 ++ s2).
Proof.
  unfold sent_by. intros H1. rewrite run_bind.
  destruct (run m w) as [[a|e] w1]; simpl in H1.
  - destruct (run_extends (k a) w1) as [[s2 Hs] _]. exists s2.
    rewrite Hs, H1. now rewrite app_assoc.
  - exists []. simpl. rewrite H1. now rewrite app_nil_r.
Qed.

Lemma challenge_rounds_first lib n w :
  exists rest,
    sent_by (challenge_rounds lib (S n) (JObj [])) w (first_challenge lib :: rest).
Proof.
  unfold sent_by. rewrite challenge_rounds_S, fill_callbacks_empty. cbv zeta.
  fold (first_challenge lib).
  assert (One : forall r : result json,
             exists rest,
               log (snd (r, with_log (log w ++ [first_challenge lib]) w))
               = (log w ++ first_challenge lib :: rest)%list).
  { intros r. now exists []. }
  destruct (server w (length (log w))) as [resp|]; [|apply One].
  destruct (status_code resp =? 200); [|apply One].
  destruct (json_body resp) as [d|]; [|apply One].
  destruct (contains "tokenId" d) as [[|]|e]; try apply One.
  destruct (run_extends (challenge_rounds lib n d)
              (with_log (log w ++ [first_challenge lib]) w)) as [[s Hs] _].
  exists s. rewrite Hs. simpl. now rewrite <- app_assoc.
Qed.

(** X6: when the controller holds a token, or has no expiry yet (it never
    logged in), [request_raw] with an allowed method starts with a login:
    the first request it sends is the POST of the empty challenge state to
    the authenticate endpoint. *)
Theorem request_raw_logs_in_first lib method endpoint vin body params headers w :
  In method allowed_methods ->
  truthy lib (_token (self w)) = true \/ _token_expiration (self w) = None ->
  exists rest,
    sent_by (request_raw lib method endpoint vin body params headers) w
      (first_challenge lib :: rest).
Proof.
  intros Hin Hst.
  assert (Hv : run (_is_token_valid lib) w = (Ok false, w)).
  { rewrite is_token_valid_spec.
    destruct (truthy lib (_token (self w))); [reflexivity |].
    destruct Hst as [Hst | ->]; [discriminate Hst | reflexivity]. }
  rewrite (request_raw_allowed _ _ _ _ _ _ _ Hin).
  destruct (challenge_rounds_first lib 9 w) as [r1 H1].
  destruct (sent_by_bind _ (fun data => let! code := authorize lib data in
                                        exchange lib code) _ _ H1) as [r2 H2].
  assert (H3 : sent_by (ensure_token lib) w ((first_challenge lib :: r1) ++ r2)).
  { unfold sent_by in *. unfold ensure_token. rewrite run_bind, Hv.
    simpl negb. cbv iota. exact H2. }
  destruct (sent_by_bind _ (fun _ => let! h := merge_headers lib vin headers in
                                     dispatch lib method endpoint h body params)
              _ _ H3) as [r4 H4].
  exists ((r1 ++ r2) ++ r4)%list. exact H4.
Qed.

Lemma request_raw_logs_in_first_witness :
  exists rest,
    sent_by (request_raw Sample.lib "GET" "/v1/x" None None None None) second_call
      (first_challenge Sample.lib :: rest).
Proof.
  apply (request_raw_logs_in_first Sample.lib "GET" "/v1/x" None None None None
           second_call).
  - simpl. tauto.
  - left. reflexivity.
Defined.

(** *** The caller's dictionaries *)

Lemma merge_headers_none lib vin w :
  run (merge_headers lib vin None) w =
  (Ok (fresh (dom (heap w))),
   with_heap (<[fresh (dom (heap w)) := merged_headers lib (self w) vin []]>
                (heap w)) w).
Proof.
  unfold merge_headers, merged_headers.
  destruct vin as [v|]; simpl.
  - f_equal. unfold with_heap. simpl. f_equal.
    unfold deref. rewrite !lookup_insert_eq. rewrite !insert_insert_eq.
    reflexivity.
  - f_equal. unfold with_heap. simpl. f_equal.
    unfold deref. rewrite !lookup_insert_eq. rewrite !insert_insert_eq.
    reflexivity.
Qed.

(** X7: called without a headers dictionary, [request_raw] builds one of
    its own: every dictionary object that existed before the call is still
    there with the same contents, whatever the outcome of the call. *)
Theorem request_raw_own_headers lib method endpoint vin body params w :
  heap w ⊆ heap (snd (run (request_raw lib method endpoint vin body params None) w)).
Proof.
  unfold request_raw. destruct (negb _); [reflexivity |].
  rewrite run_bind.
  pose proof (ensure_token_outcome lib w) as Ho.
  destruct (run (ensure_token lib) w) as [[u|e] w1].
  2:{ destruct Ho as [[Hh _] _]. simpl. now rewrite Hh. }
  destruct Ho as [_ [Hh _]].
  rewrite run_bind, merge_headers_none, dispatch_outcome. cbv zeta.
  assert (Hsub : heap w ⊆ <[fresh (dom (heap w1)) :=
                             merged_headers lib (self w1) vin []]> (heap w1)).
  { rewrite Hh. apply insert_subseteq. apply not_elem_of_dom. apply is_fresh. }
  destruct (server _ _) as [resp|]; [|exact Hsub].
  destruct (_ || _); exact Hsub.
Qed.
